(** * Cross-exchange arbitrage example: a shallow embedding

    Embedding of [catalyst/examples/arbitrage_with_interface.py]: the
    per-bar decision code of a two-exchange arbitrage strategy
    ([initialize], [place_order], [handle_data]).

    Modelling conventions.
    - Python floats (prices, balances, amounts, thresholds) are exact
      rationals in canonical form ([Qc]); [x / y] raises
      [ZeroDivisionError] when [y] is zero, as Python's [/] does.
    - Dictionaries are [gmap]s.  [context.trading_pairs] is keyed by the
      exchange, identified here by its name.
    - Calls to the platform ([log], [record], [order]) append an event to
      a trace; a raised exception keeps the events that happened before
      it.  Log messages are kept as the values they format (an exchange
      name is kept as it is where the message upper-cases it).
    - What the platform answers during a bar (prices, cash, balances,
      open orders) is read from the arguments: [BarData], [Api] and the
      fields of [Exchange]. *)

From Stdlib Require Import QArith Qcanon Qabs.
From stdpp Require Import sorting numbers gmap strings list.

Local Open Scope string_scope.
Local Open Scope list_scope.
Local Open Scope Qc_scope.

(** ** Data *)

Record Exchange := {
  name : string;
  base_currency : string;
  portfolio_cash : Qc;            (* exchange.portfolio.cash *)
  get_balances : gmap string Qc;  (* exchange.get_balances() *)
}.

(** The asset returned by [symbol(pair, exchange_name)]. *)
Record TradingPair := {
  pair_symbol : string;
  pair_exchange : string;
  market_currency : string;
}.

(** A threshold rule [dict(gap=..., amount=...)]. *)
Record Point := {
  point_gap : Qc;
  point_amount : Qc;
}.

Record Context := {
  buying_exchange : Exchange;
  selling_exchange : Exchange;
  trading_pair_symbol : string;
  trading_pairs : gmap string TradingPair;
  entry_points : list Point;
  exit_points : list Point;
  MAX_POSITIONS : Z;
  SLIPPAGE_ALLOWED : Qc;
}.

(** The arguments of one call [order(asset=, amount=, limit_price=)]. *)
Record OrderIntent := {
  order_asset : TradingPair;
  order_amount : Qc;
  order_limit_price : Qc;
}.

(** [data.current(asset, 'price')] for the bar being handled. *)
Record BarData := {
  current_dt : Z;
  current_price : TradingPair → Qc;
}.

(** The part of [catalyst.api] that answers queries. *)
Record Api := {
  get_open_orders : TradingPair → list positive;
}.

(** ** Effects: a trace of platform calls, and exceptions *)

Inductive Exception :=
| ValueError (message : string)
| KeyError (key : string)
| ZeroDivisionError.

Inductive Level := INFO | WARNING.

Inductive Message :=
| msg_initializing
| msg_does_not_hold (exchange_name currency : string)
| msg_adjusting (base_currency : string) (base_currency_amount amount adj_amount : Qc)
| msg_aborting (currency : string) (currency_amount amount : Qc)
| msg_buying (amount : Qc) (trading_pair exchange_name : string) (limit_price : Qc)
| msg_selling (amount : Qc) (trading_pair exchange_name : string) (limit_price : Qc)
| msg_handling_bar (dt : Z)
| msg_price_buying (exchange : string) (price : Qc)
| msg_price_selling (exchange : string) (price : Qc)
| msg_price_gap (gap gap_percent : Qc)
| msg_open_orders (order_count : nat) (exchange_name : string)
| msg_buy_trigger (amount : Qc)
| msg_sell_trigger (amount : Qc).

Inductive Event :=
| Log (level : Level) (message : Message)
| Recorded (buying_price selling_price gap : Qc)
| Ordered (o : OrderIntent).

Inductive Result (A : Type) :=
| Return (a : A)
| Raise (e : Exception).
Arguments Return {A} a.
Arguments Raise {A} e.

Definition M (A : Type) : Type := (list Event * Result A)%type.

Definition emit (e : Event) : M unit := ([e], Return ()).
Definition raise {A} (e : Exception) : M A := ([], Raise e).

#[global] Instance M_ret : MRet M := λ A a, ([], Return a).
#[global] Instance M_bind : MBind M := λ A B f m,
  match m with
  | (t, Return a) => let '(t', r) := f a in (t ++ t', r)
  | (t, Raise e) => (t, Raise e)
  end.

Definition trace {A} (m : M A) : list Event := m.1.
Definition result {A} (m : M A) : Result A := m.2.

(** The orders submitted during a run, in submission order. *)
Fixpoint orders_of (t : list Event) : list OrderIntent :=
  match t with
  | [] => []
  | Ordered o :: t' => o :: orders_of t'
  | _ :: t' => orders_of t'
  end.

Definition info (m : Message) : M unit := emit (Log INFO m).
Definition warn (m : Message) : M unit := emit (Log WARNING m).
Definition record (buying_price selling_price gap : Qc) : M unit :=
  emit (Recorded buying_price selling_price gap).
Definition order (asset : TradingPair) (amount limit_price : Qc) : M unit :=
  emit (Ordered {| order_asset := asset; order_amount := amount;
                   order_limit_price := limit_price |}).

(** ** Python primitives *)

(** [x / y] on floats. *)
Definition pydiv (x y : Qc) : M Qc :=
  if decide (y = 0) then raise ZeroDivisionError else mret (x / y).

(** [d[k]] on a dictionary keyed by exchange. *)
Definition getitem {V} (d : gmap string V) (k : string) : M V :=
  match d !! k with
  | Some v => mret v
  | None => raise (KeyError k)
  end.

(** Truth value of [None] or a float: the value when it counts as true. *)
Definition truthy (x : option Qc) : option Qc :=
  match x with
  | Some a => if decide (a = 0) then None else Some a
  | None => None
  end.

(** [sorted(l, key=key, reverse=reverse)]: stable, ascending by key, or
    descending when [reverse] is set (equal keys keep their order in both
    directions). *)
Section sorted.
Context {A : Type} (key : A → Qc).

Definition precedes (reverse : bool) (x y : A) : Prop :=
  if reverse then key y ≤ key x else key x ≤ key y.

#[global] Instance precedes_dec reverse x y : Decision (precedes reverse x y).
Proof. destruct reverse; simpl; apply _. Defined.

Fixpoint insert_sorted (reverse : bool) (x : A) (l : list A) : list A :=
  match l with
  | [] => [x]
  | y :: l' =>
      if decide (precedes reverse x y) then x :: y :: l'
      else y :: insert_sorted reverse x l'
  end.

Definition sorted (l : list A) (reverse : bool) : list A :=
  foldr (insert_sorted reverse) [] l.
End sorted.

(** ** [initialize] *)

(** [symbol] is the platform's asset lookup. *)
Definition initialize (symbol : string → string → TradingPair)
    (exchanges : gmap string Exchange) : M Context :=
  info msg_initializing ;;
  buying_exchange ← getitem exchanges "bittrex" ;
  selling_exchange ← getitem exchanges "bitfinex" ;
  let trading_pair_symbol := "neo_eth" in
  let trading_pairs : gmap string TradingPair := ∅ in
  let trading_pairs :=
    <[name buying_exchange :=
        symbol trading_pair_symbol (name buying_exchange)]> trading_pairs in
  let trading_pairs :=
    <[name selling_exchange :=
        symbol trading_pair_symbol (name selling_exchange)]> trading_pairs in
  mret {|
    buying_exchange := buying_exchange;
    selling_exchange := selling_exchange;
    trading_pair_symbol := trading_pair_symbol;
    trading_pairs := trading_pairs;
    entry_points := [
      {| point_gap := Q2Qc 0.03; point_amount := Q2Qc 0.05 |};
      {| point_gap := Q2Qc 0.04; point_amount := Q2Qc 0.1 |};
      {| point_gap := Q2Qc 0.05; point_amount := Q2Qc 0.5 |} ];
    exit_points := [
      {| point_gap := Q2Qc (-0.02); point_amount := Q2Qc 0.5 |} ];
    MAX_POSITIONS := 50;
    SLIPPAGE_ALLOWED := Q2Qc 0.02;
  |}.

(** ** [place_order] *)

(** Lines 81-102: the amount the two orders will use, or [None] when the
    call returns without ordering. *)
Definition sized_amount (base_currency exit_currency : string)
    (base_currency_amount market_currency_amount amount entry_price : Qc)
    : M (option Qc) :=
  if decide (base_currency_amount < amount * entry_price) then
    adj_amount ← pydiv base_currency_amount entry_price ;
    warn (msg_adjusting base_currency base_currency_amount amount adj_amount) ;;
    mret (Some adj_amount)
  else if decide (market_currency_amount < amount) then
    warn (msg_aborting exit_currency market_currency_amount amount) ;;
    mret None
  else mret (Some amount).

Definition place_order (context : Context)
    (amount buying_price selling_price : Qc) (action : string) : M unit :=
  '(enter_exchange, entry_price, exit_exchange, exit_price) ←
    (if decide (action = "enter") then
       mret (buying_exchange context, buying_price,
             selling_exchange context, selling_price)
     else if decide (action = "exit") then
       mret (selling_exchange context, selling_price,
             buying_exchange context, buying_price)
     else raise (ValueError "invalid order action")) ;
  let base_currency := base_currency enter_exchange in
  let base_currency_amount := portfolio_cash enter_exchange in
  let exit_balances := get_balances exit_exchange in
  selling_pair ← getitem (trading_pairs context) (name (selling_exchange context)) ;
  let exit_currency := market_currency selling_pair in
  match exit_balances !! exit_currency with
  | None =>
      warn (msg_does_not_hold (name exit_exchange) exit_currency)
  | Some market_currency_amount =>
      sized ← sized_amount base_currency exit_currency base_currency_amount
                market_currency_amount amount entry_price ;
      match sized with
      | None => mret ()
      | Some amount =>
          let adj_buy_price := entry_price * (1 + SLIPPAGE_ALLOWED context) in
          info (msg_buying amount (trading_pair_symbol context)
                  (name enter_exchange) adj_buy_price) ;;
          enter_pair ← getitem (trading_pairs context) (name enter_exchange) ;
          order enter_pair amount adj_buy_price ;;
          let adj_sell_price := exit_price * (1 - SLIPPAGE_ALLOWED context) in
          info (msg_selling (- amount) (trading_pair_symbol context)
                  (name exit_exchange) adj_sell_price) ;;
          exit_pair ← getitem (trading_pairs context) (name exit_exchange) ;
          order exit_pair (- amount) adj_sell_price
      end
  end.

(** ** [handle_data] *)

(** Line 165. *)
Definition price_gap (buying_price selling_price : Qc) : M Qc :=
  pydiv (selling_price - buying_price) buying_price.

(** Lines 174-186: the loop over [context.trading_pairs]; [continue_] is
    the rest of [handle_data], skipped by the [return] inside the loop.
    [handle_data] runs it over [map_to_list], which fixes one iteration
    order of the dictionary. *)
Fixpoint open_order_gate (api : Api) (pairs : list (string * TradingPair))
    (continue_ : M unit) : M unit :=
  match pairs with
  | [] => continue_
  | (exchange, asset) :: pairs' =>
      let orders := get_open_orders api asset in
      match orders with
      | _ :: _ => info (msg_open_orders (length orders) exchange)
      | [] => open_order_gate api pairs' continue_
      end
  end.

(** Lines 190-198. *)
Definition buy_amount (entry_points : list Point) (gap : Qc) : option Qc :=
  fold_left
    (λ buy_amount entry_point,
       if decide (point_gap entry_point < gap)
       then Some (point_amount entry_point) else buy_amount)
    (sorted point_gap entry_points false) None.

(** Lines 213-222. *)
Definition sell_amount (exit_points : list Point) (gap : Qc) : option Qc :=
  fold_left
    (λ sell_amount exit_point,
       if decide (gap < point_gap exit_point)
       then Some (point_amount exit_point) else sell_amount)
    (sorted point_gap exit_points true) None.

(** Lines 188-232. *)
Definition handle_triggers (context : Context)
    (buying_price selling_price gap : Qc) : M unit :=
  match truthy (buy_amount (entry_points context) gap) with
  | Some buy_amount =>
      info (msg_buy_trigger buy_amount) ;;
      place_order context buy_amount buying_price selling_price "enter"
  | None =>
      match truthy (sell_amount (exit_points context) gap) with
      | Some sell_amount =>
          info (msg_sell_trigger sell_amount) ;;
          place_order context sell_amount buying_price selling_price "exit"
      | None => mret ()
      end
  end.

Definition handle_data (api : Api) (context : Context) (data : BarData) : M unit :=
  info (msg_handling_bar (current_dt data)) ;;
  buying_pair ← getitem (trading_pairs context) (name (buying_exchange context)) ;
  let buying_price := current_price data buying_pair in
  info (msg_price_buying (name (buying_exchange context)) buying_price) ;;
  selling_pair ← getitem (trading_pairs context) (name (selling_exchange context)) ;
  let selling_price := current_price data selling_pair in
  info (msg_price_selling (name (selling_exchange context)) selling_price) ;;
  gap ← price_gap buying_price selling_price ;
  info (msg_price_gap gap (gap * Q2Qc 100)) ;;
  record buying_price selling_price gap ;;
  open_order_gate api (map_to_list (trading_pairs context))
    (handle_triggers context buying_price selling_price gap).

(** ** Vocabulary of the specification *)

(** Section 4.3, mapping of roles by action: the exchange and price of
    the buy leg and of the sell leg. *)
Record Legs := {
  buy_exchange : Exchange;
  buyPrice : Qc;
  sell_exchange : Exchange;
  sellPrice : Qc;
}.

Definition legs (context : Context) (action : string)
    (buying_price selling_price : Qc) : option Legs :=
  if decide (action = "enter") then
    Some {| buy_exchange := buying_exchange context; buyPrice := buying_price;
            sell_exchange := selling_exchange context; sellPrice := selling_price |}
  else if decide (action = "exit") then
    Some {| buy_exchange := selling_exchange context; buyPrice := selling_price;
            sell_exchange := buying_exchange context; sellPrice := buying_price |}
  else None.

(** Section 3, TradingPairBinding: both configured exchanges have their
    instrument, as [initialize] sets it up. *)
Definition bound (context : Context) (buying_pair selling_pair : TradingPair) : Prop :=
  trading_pairs context !! name (buying_exchange context) = Some buying_pair
  ∧ trading_pairs context !! name (selling_exchange context) = Some selling_pair.

(** The instrument of a leg's exchange. *)
Definition pair_of (context : Context) (e : Exchange) : option TradingPair :=
  trading_pairs context !! name e.

(** The market currency whose balance [place_order] looks up. *)
Definition exit_currency (context : Context) : option string :=
  market_currency <$> trading_pairs context !! name (selling_exchange context).

(** Section 4.2, output of the Trigger Selector. *)
Inductive Action :=
| Enter (amount : Qc)
| Exit (amount : Qc)
| NoAction.

Definition trigger_selector (entry_points exit_points : list Point) (gap : Qc)
    : Action :=
  match truthy (buy_amount entry_points gap) with
  | Some a => Enter a
  | None =>
      match truthy (sell_amount exit_points gap) with
      | Some a => Exit a
      | None => NoAction
      end
  end.

(** What [handle_data] does for each output of the Trigger Selector. *)
Definition act (context : Context) (buying_price selling_price : Qc)
    (a : Action) : M unit :=
  match a with
  | Enter amount =>
      info (msg_buy_trigger amount) ;;
      place_order context amount buying_price selling_price "enter"
  | Exit amount =>
      info (msg_sell_trigger amount) ;;
      place_order context amount buying_price selling_price "exit"
  | NoAction => mret ()
  end.

(** Magnitude of an amount. *)
Definition magnitude (x : Qc) : Q := Qabs x.

(** ** A concrete run: the configuration of [initialize] *)

Definition neo_eth (pair exchange_name : string) : TradingPair :=
  {| pair_symbol := pair; pair_exchange := exchange_name;
     market_currency := "neo" |}.

Definition bittrex (cash : Qc) (balances : gmap string Qc) : Exchange :=
  {| name := "bittrex"; base_currency := "eth";
     portfolio_cash := cash; get_balances := balances |}.

Definition bitfinex (cash : Qc) (balances : gmap string Qc) : Exchange :=
  {| name := "bitfinex"; base_currency := "eth";
     portfolio_cash := cash; get_balances := balances |}.

Definition default_entry_points : list Point := [
  {| point_gap := Q2Qc 0.03; point_amount := Q2Qc 0.05 |};
  {| point_gap := Q2Qc 0.04; point_amount := Q2Qc 0.1 |};
  {| point_gap := Q2Qc 0.05; point_amount := Q2Qc 0.5 |} ].

Definition default_exit_points : list Point := [
  {| point_gap := Q2Qc (-0.02); point_amount := Q2Qc 0.5 |} ].

(** The context [initialize] builds from the two exchanges. *)
Definition initialized (buying selling : Exchange) : Context :=
  {| buying_exchange := buying;
     selling_exchange := selling;
     trading_pair_symbol := "neo_eth";
     trading_pairs :=
       <[name selling := neo_eth "neo_eth" (name selling)]>
         (<[name buying := neo_eth "neo_eth" (name buying)]> ∅);
     entry_points := default_entry_points;
     exit_points := default_exit_points;
     MAX_POSITIONS := 50;
     SLIPPAGE_ALLOWED := Q2Qc 0.02 |}.

(** Prices of one bar, per exchange. *)
Definition bar (bittrex_price bitfinex_price : Qc) : BarData :=
  {| current_dt := 0;
     current_price := λ asset,
       if decide (pair_exchange asset = "bittrex") then bittrex_price
       else bitfinex_price |}.

Definition no_open_orders : Api := {| get_open_orders := λ _, [] |}.

(** One order open on the named exchange. *)
Definition open_on (exchange_name : string) : Api :=
  {| get_open_orders := λ asset,
       if decide (pair_exchange asset = exchange_name) then [1%positive] else [] |}.

(** Section 4.3, steps 5 and 6: the two intents for a sized amount. *)
Definition buy_intent (context : Context) (L : Legs) (buy_pair : TradingPair)
    (amount : Qc) : OrderIntent :=
  {| order_asset := buy_pair; order_amount := amount;
     order_limit_price := buyPrice L * (1 + SLIPPAGE_ALLOWED context) |}.

Definition sell_intent (context : Context) (L : Legs) (sell_pair : TradingPair)
    (amount : Qc) : OrderIntent :=
  {| order_asset := sell_pair; order_amount := - amount;
     order_limit_price := sellPrice L * (1 - SLIPPAGE_ALLOWED context) |}.

(** The events of lines 104-134 for a sized amount. *)
Definition emission (context : Context) (L : Legs)
    (buy_pair sell_pair : TradingPair) (amount : Qc) : list Event :=
  [ Log INFO (msg_buying amount (trading_pair_symbol context)
                (name (buy_exchange L)) (order_limit_price (buy_intent context L buy_pair amount)));
    Ordered (buy_intent context L buy_pair amount);
    Log INFO (msg_selling (- amount) (trading_pair_symbol context)
                (name (sell_exchange L)) (order_limit_price (sell_intent context L sell_pair amount)));
    Ordered (sell_intent context L sell_pair amount) ].

(** The same context with other rule tables. *)
Definition with_points (context : Context) (entry exit : list Point) : Context :=
  {| buying_exchange := buying_exchange context;
     selling_exchange := selling_exchange context;
     trading_pair_symbol := trading_pair_symbol context;
     trading_pairs := trading_pairs context;
     entry_points := entry;
     exit_points := exit;
     MAX_POSITIONS := MAX_POSITIONS context;
     SLIPPAGE_ALLOWED := SLIPPAGE_ALLOWED context |}.

(** The events of [handle_data] up to the loop over open orders. *)
Definition preamble (context : Context) (data : BarData)
    (buying_price selling_price gap : Qc) : list Event :=
  [ Log INFO (msg_handling_bar (current_dt data));
    Log INFO (msg_price_buying (name (buying_exchange context)) buying_price);
    Log INFO (msg_price_selling (name (selling_exchange context)) selling_price);
    Log INFO (msg_price_gap gap (gap * Q2Qc 100));
    Recorded buying_price selling_price gap ].

(** A run where both the cash and the inventory are short: 100 eth on the
    buying exchange, a zero neo balance on the selling exchange. *)
Definition short_of_both : Context :=
  initialized (bittrex (Q2Qc 100) ∅) (bitfinex 0 {[ "neo" := Q2Qc 0 ]}).

(** A run with cash short and inventory at hand. *)
Definition short_of_cash : Context :=
  initialized (bittrex (Q2Qc 100) ∅) (bitfinex 0 {[ "neo" := Q2Qc 50 ]}).

(** A run with no cash at all on the buying exchange. *)
Definition no_cash : Context :=
  initialized (bittrex 0 ∅) (bitfinex 0 {[ "neo" := Q2Qc 50 ]}).

(** A run with cash at hand and too little inventory. *)
Definition short_of_inventory : Context :=
  initialized (bittrex (Q2Qc 1000) ∅) (bitfinex 0 {[ "neo" := Q2Qc 5 ]}).

Definition enter_legs (context : Context) (buying_price selling_price : Qc) : Legs :=
  {| buy_exchange := buying_exchange context; buyPrice := buying_price;
     sell_exchange := selling_exchange context; sellPrice := selling_price |}.

(** The same context with the two exchanges in each other's role. *)
Definition swap_roles (context : Context) : Context :=
  {| buying_exchange := selling_exchange context;
     selling_exchange := buying_exchange context;
     trading_pair_symbol := trading_pair_symbol context;
     trading_pairs := trading_pairs context;
     entry_points := entry_points context;
     exit_points := exit_points context;
     MAX_POSITIONS := MAX_POSITIONS context;
     SLIPPAGE_ALLOWED := SLIPPAGE_ALLOWED context |}.

Definition exit_legs (context : Context) (buying_price selling_price : Qc) : Legs :=
  {| buy_exchange := selling_exchange context; buyPrice := selling_price;
     sell_exchange := buying_exchange context; sellPrice := buying_price |}.

(** A run with cash and inventory at hand on both exchanges. *)
Definition well_funded : Context :=
  initialized (bittrex (Q2Qc 1000) {[ "neo" := Q2Qc 50 ]})
    (bitfinex (Q2Qc 1000) {[ "neo" := Q2Qc 50 ]}).

(** * Properties *)

(** ** [sorted] orders by key, keeps the elements and is stable *)

Section sorted_facts.
Context {A : Type} (key : A → Qc).

Lemma precedes_total reverse x y :
  precedes key reverse x y ∨ precedes key reverse y x.
Proof. destruct reverse; simpl; apply (total Qcle). Qed.

#[global] Instance precedes_refl reverse : Reflexive (precedes key reverse).
Proof. intros x. destruct reverse; simpl; apply Qcle_refl. Qed.

#[global] Instance precedes_trans reverse : Transitive (precedes key reverse).
Proof. intros x y z. destruct reverse; simpl; eauto using Qcle_trans. Qed.

Lemma insert_sorted_perm reverse x l :
  insert_sorted key reverse x l ≡ₚ x :: l.
Proof.
  induction l as [|y l IH]; simpl; [done|].
  case_decide; [done|]. rewrite IH. apply Permutation_swap.
Qed.

Lemma sorted_perm l reverse : sorted key l reverse ≡ₚ l.
Proof.
  induction l as [|x l IH]; simpl; [done|].
  rewrite insert_sorted_perm. by f_equiv.
Qed.

Lemma insert_sorted_StronglySorted reverse x l :
  StronglySorted (precedes key reverse) l →
  StronglySorted (precedes key reverse) (insert_sorted key reverse x l).
Proof.
  induction 1 as [|y l Hl IH Hy]; simpl.
  - repeat constructor.
  - case_decide as Hxy.
    + constructor; [by constructor|].
      constructor; [done|].
      eapply Forall_impl; [exact Hy|]. intros z Hz. by etrans.
    + constructor; [done|].
      rewrite insert_sorted_perm. constructor; [|done].
      by destruct (precedes_total reverse x y).
Qed.

Lemma sorted_StronglySorted l reverse :
  StronglySorted (precedes key reverse) (sorted key l reverse).
Proof.
  induction l as [|x l IH]; simpl; [constructor|].
  by apply insert_sorted_StronglySorted.
Qed.

(** Elements with the same key keep their relative order. *)
Lemma insert_sorted_stable reverse k x l :
  filter (λ y, key y = k) (insert_sorted key reverse x l)
  = filter (λ y, key y = k) (x :: l).
Proof.
  induction l as [|y l IH]; simpl; [done|].
  case_decide as Hxy; [done|].
  rewrite !filter_cons in *.
  destruct (decide (key y = k)) as [Hy|Hy], (decide (key x = k)) as [Hx|Hx];
    try (by rewrite IH).
  exfalso. apply Hxy. destruct reverse; simpl; rewrite Hx, Hy; apply Qcle_refl.
Qed.

Lemma sorted_stable l reverse k :
  filter (λ y, key y = k) (sorted key l reverse) = filter (λ y, key y = k) l.
Proof.
  induction l as [|x l IH]; simpl; [done|].
  by rewrite insert_sorted_stable, !filter_cons, IH.
Qed.
End sorted_facts.

(** ** The overwrite loop returns the last match *)

Lemma fold_left_last_match {A B} (P : A → Prop) `{!∀ x, Decision (P x)}
    (f : A → B) (l : list A) (acc : option B) :
  fold_left (λ acc x, if decide (P x) then Some (f x) else acc) l acc
  = match last (filter P l) with Some x => Some (f x) | None => acc end.
Proof.
  revert acc. induction l as [|x l IH]; intros acc; simpl; [done|].
  rewrite IH, filter_cons. case_decide; [|done].
  rewrite last_cons. by destruct (last (filter P l)).
Qed.

Lemma StronglySorted_last {A} (R : relation A) `{!Reflexive R} l x y :
  StronglySorted R l → last l = Some x → y ∈ l → R y x.
Proof.
  intros Hl [l' ->]%last_Some [Hy| ->%list_elem_of_singleton]%elem_of_app.
  - eapply StronglySorted_app_1_elem_of; [done..|]. by apply list_elem_of_singleton.
  - done.
Qed.

Lemma StronglySorted_filter {A} (R : relation A) (P : A → Prop)
    `{!∀ x, Decision (P x)} l :
  StronglySorted R l → StronglySorted R (filter P l).
Proof.
  induction 1 as [|x l Hl IH Hx]; [constructor|].
  rewrite filter_cons. case_decide; [|done].
  constructor; [done|].
  rewrite Forall_forall in *. intros y [_ Hy]%list_elem_of_filter. auto.
Qed.

(** ** The monad of traces and exceptions *)

Lemma M_bind_ret {A B} (a : A) (f : A → M B) : mret a ≫= f = f a.
Proof. unfold mbind, mret, M_bind, M_ret. by destruct (f a). Qed.

Lemma M_bind_raise {A B} (e : Exception) (f : A → M B) : raise e ≫= f = raise e.
Proof. done. Qed.

Lemma M_bind_emit {B} (e : Event) (f : unit → M B) :
  emit e ≫= f = (e :: trace (f ()), result (f ())).
Proof. unfold mbind, M_bind, emit, trace, result. by destruct (f ()). Qed.

Lemma getitem_Some {V} (d : gmap string V) k v :
  d !! k = Some v → getitem d k = mret v.
Proof. unfold getitem. by intros ->. Qed.

Lemma getitem_None {V} (d : gmap string V) k :
  d !! k = None → getitem d k = raise (KeyError k).
Proof. unfold getitem. by intros ->. Qed.

Lemma orders_of_app t1 t2 : orders_of (t1 ++ t2) = orders_of t1 ++ orders_of t2.
Proof.
  induction t1 as [|[] t1 IH]; simpl; [done|done| |]; by rewrite IH.
Qed.

(** ** [place_order], path by path *)

Section place_order_paths.
Context (context : Context) (amount buying_price selling_price : Qc).
Context (action : string) (L : Legs).
Context (selling_pair : TradingPair).
Hypothesis HL : legs context action buying_price selling_price = Some L.
Hypothesis Hselling :
  trading_pairs context !! name (selling_exchange context) = Some selling_pair.

Let cashAvail := portfolio_cash (buy_exchange L).
Let slippage := SLIPPAGE_ALLOWED context.

Lemma place_order_unfold :
  place_order context amount buying_price selling_price action =
  match get_balances (sell_exchange L) !! market_currency selling_pair with
  | None =>
      warn (msg_does_not_hold (name (sell_exchange L))
              (market_currency selling_pair))
  | Some marketAvail =>
      sized ← sized_amount (base_currency (buy_exchange L))
                (market_currency selling_pair) cashAvail marketAvail
                amount (buyPrice L) ;
      match sized with
      | None => mret ()
      | Some amount =>
          info (msg_buying amount (trading_pair_symbol context)
                  (name (buy_exchange L)) (buyPrice L * (1 + slippage))) ;;
          enter_pair ← getitem (trading_pairs context) (name (buy_exchange L)) ;
          order enter_pair amount (buyPrice L * (1 + slippage)) ;;
          info (msg_selling (- amount) (trading_pair_symbol context)
                  (name (sell_exchange L)) (sellPrice L * (1 - slippage))) ;;
          exit_pair ← getitem (trading_pairs context) (name (sell_exchange L)) ;
          order exit_pair (- amount) (sellPrice L * (1 - slippage))
      end
  end.
Proof.
  unfold place_order, legs in *.
  repeat case_decide; simplify_eq;
    subst cashAvail slippage; cbn [buy_exchange sell_exchange buyPrice sellPrice];
    by rewrite M_bind_ret, (getitem_Some _ _ _ Hselling), M_bind_ret.
Qed.

Context (buy_pair sell_pair : TradingPair).
Hypothesis Hbuy : pair_of context (buy_exchange L) = Some buy_pair.
Hypothesis Hsell : pair_of context (sell_exchange L) = Some sell_pair.

(** Currency missing from the balances: a warning, nothing else. *)
Lemma place_order_absent :
  get_balances (sell_exchange L) !! market_currency selling_pair = None →
  place_order context amount buying_price selling_price action
  = warn (msg_does_not_hold (name (sell_exchange L))
            (market_currency selling_pair)).
Proof. intros Hbal. by rewrite place_order_unfold, Hbal. Qed.

Context (marketAvail : Qc).
Hypothesis Hbal :
  get_balances (sell_exchange L) !! market_currency selling_pair
  = Some marketAvail.

Lemma place_order_sized (a : Qc) (t : list Event) :
  sized_amount (base_currency (buy_exchange L)) (market_currency selling_pair)
    cashAvail marketAvail amount (buyPrice L) = (t, Return (Some a)) →
  place_order context amount buying_price selling_price action
  = (t ++ emission context L buy_pair sell_pair a, Return ()).
Proof.
  intros Hsized. rewrite place_order_unfold, Hbal, Hsized.
  unfold pair_of in *.
  unfold mbind at 1, M_bind at 1, info, order.
  by rewrite M_bind_emit, (getitem_Some _ _ _ Hbuy), M_bind_ret, !M_bind_emit,
    (getitem_Some _ _ _ Hsell), M_bind_ret.
Qed.

(** Cash short: the amount is adjusted and both orders are placed. *)
Lemma place_order_clamp :
  cashAvail < amount * buyPrice L → buyPrice L ≠ 0 →
  place_order context amount buying_price selling_price action
  = (Log WARNING (msg_adjusting (base_currency (buy_exchange L)) cashAvail
                    amount (cashAvail / buyPrice L))
     :: emission context L buy_pair sell_pair (cashAvail / buyPrice L),
     Return ()).
Proof.
  intros Hcash Hprice.
  apply (place_order_sized (cashAvail / buyPrice L) [Log WARNING _]).
  unfold sized_amount, pydiv. by rewrite decide_True, decide_False.
Qed.

Lemma place_order_zero_division :
  cashAvail < amount * buyPrice L → buyPrice L = 0 →
  place_order context amount buying_price selling_price action
  = raise ZeroDivisionError.
Proof.
  intros Hcash Hprice. rewrite place_order_unfold, Hbal.
  unfold sized_amount, pydiv. by rewrite !decide_True.
Qed.

(** Cash sufficient, inventory short: a warning, nothing else. *)
Lemma place_order_abort :
  ¬ cashAvail < amount * buyPrice L → marketAvail < amount →
  place_order context amount buying_price selling_price action
  = warn (msg_aborting (market_currency selling_pair) marketAvail amount).
Proof.
  intros Hcash Hmarket. rewrite place_order_unfold, Hbal.
  unfold sized_amount. by rewrite decide_False, decide_True.
Qed.

(** Cash and inventory sufficient: both orders at the requested amount. *)
Lemma place_order_plain :
  ¬ cashAvail < amount * buyPrice L → ¬ marketAvail < amount →
  place_order context amount buying_price selling_price action
  = (emission context L buy_pair sell_pair amount, Return ()).
Proof.
  intros Hcash Hmarket. apply (place_order_sized amount []).
  unfold sized_amount. by rewrite !decide_False.
Qed.
End place_order_paths.

Lemma place_order_invalid_action context amount buying_price selling_price action :
  legs context action buying_price selling_price = None →
  place_order context amount buying_price selling_price action
  = raise (ValueError "invalid order action").
Proof. unfold legs, place_order. by repeat case_decide. Qed.

(** ** [handle_data], stage by stage *)

(** An open order on some exchange ends the bar with one log line. *)
Lemma open_order_gate_closed api pairs continue_ :
  (∃ exchange asset, (exchange, asset) ∈ pairs ∧ get_open_orders api asset ≠ []) →
  ∃ exchange asset, (exchange, asset) ∈ pairs ∧
    open_order_gate api pairs continue_
    = info (msg_open_orders (length (get_open_orders api asset)) exchange).
Proof.
  induction pairs as [|[e a] pairs IH]; intros (exchange & asset & Hin & Hopen).
  - by apply elem_of_nil in Hin.
  - simpl. destruct (get_open_orders api a) as [|o os] eqn:Ha.
    + apply elem_of_cons in Hin as [[= -> ->]|Hin]; [done|].
      destruct IH as (e' & a' & Hin' & ->); [by eauto|].
      exists e', a'. split; [by right|done].
    + exists e, a. split; [by left|]. by rewrite Ha.
Qed.

Lemma open_order_gate_open api pairs continue_ :
  (∀ exchange asset, (exchange, asset) ∈ pairs → get_open_orders api asset = []) →
  open_order_gate api pairs continue_ = continue_.
Proof.
  induction pairs as [|[e a] pairs IH]; intros Hnone; simpl; [done|].
  rewrite (Hnone e a) by left. apply IH. intros e' a' Hin. apply (Hnone e' a'). by right.
Qed.

Lemma handle_data_unfold api context data buying_pair selling_pair :
  bound context buying_pair selling_pair →
  let buying_price := current_price data buying_pair in
  let selling_price := current_price data selling_pair in
  let gap := (selling_price - buying_price) / buying_price in
  let rest :=
    open_order_gate api (map_to_list (trading_pairs context))
      (handle_triggers context buying_price selling_price gap) in
  buying_price ≠ 0 →
  handle_data api context data
  = (preamble context data buying_price selling_price gap ++ trace rest,
     result rest).
Proof.
  intros [Hb Hs] bp sp gap rest Hbp.
  unfold handle_data, price_gap, pydiv, info, record.
  rewrite (getitem_Some _ _ _ Hb), (getitem_Some _ _ _ Hs).
  rewrite M_bind_emit, M_bind_ret, M_bind_emit, M_bind_ret, M_bind_emit.
  by rewrite decide_False, M_bind_ret, !M_bind_emit.
Qed.

Lemma handle_triggers_act context buying_price selling_price gap :
  handle_triggers context buying_price selling_price gap
  = act context buying_price selling_price
      (trigger_selector (entry_points context) (exit_points context) gap).
Proof.
  unfold handle_triggers, trigger_selector.
  by repeat case_match.
Qed.

(** ** Trigger selection *)

Lemma sorted_last_match {A} (key : A → Qc) (P : A → Prop)
    `{!∀ x, Decision (P x)} (l : list A) (reverse : bool) :
  (∃ x, x ∈ l ∧ P x) →
  ∃ x, last (filter P (sorted key l reverse)) = Some x
       ∧ x ∈ l ∧ P x
       ∧ ∀ y, y ∈ l → P y → precedes key reverse y x.
Proof.
  intros (x0 & Hx0 & HP0).
  assert (x0 ∈ filter P (sorted key l reverse)) as Hin0.
  { apply list_elem_of_filter. by rewrite sorted_perm. }
  destruct (last (filter P (sorted key l reverse))) as [x|] eqn:Hlast.
  - exists x. split; [done|].
    assert (x ∈ filter P (sorted key l reverse)) as [HP Hx]%list_elem_of_filter.
    { apply last_Some in Hlast as [l' ->]. set_solver. }
    rewrite sorted_perm in Hx. repeat split; [done..|].
    intros y Hy HPy.
    eapply (StronglySorted_last (precedes key reverse)); [|done|].
    + apply StronglySorted_filter, sorted_StronglySorted.
    + apply list_elem_of_filter. by rewrite sorted_perm.
  - apply last_None in Hlast. rewrite Hlast in Hin0. by apply elem_of_nil in Hin0.
Qed.

Lemma buy_amount_last_match entry_points gap :
  buy_amount entry_points gap
  = point_amount
      <$> last (filter (λ q, point_gap q < gap) (sorted point_gap entry_points false)).
Proof.
  unfold buy_amount.
  rewrite (fold_left_last_match (λ q, point_gap q < gap) point_amount).
  by destruct (last _).
Qed.

Lemma sell_amount_last_match exit_points gap :
  sell_amount exit_points gap
  = point_amount
      <$> last (filter (λ q, gap < point_gap q) (sorted point_gap exit_points true)).
Proof.
  unfold sell_amount.
  rewrite (fold_left_last_match (λ q, gap < point_gap q) point_amount).
  by destruct (last _).
Qed.

(** C1. Entry trigger selection: the entry rules are sorted ascending by
    gap threshold, and when the gap exceeds at least one threshold the
    selected amount is that of the last rule, in that order, whose
    threshold the gap strictly exceeds, a rule with the largest threshold
    still exceeded; for the rules (0.03,0.05), (0.04,0.1), (0.05,0.5) and
    gap 0.045 the selected amount is 0.1. *)
Theorem C1_entry_trigger_selection (entry_points : list Point) (gap : Qc) :
  (∃ p, p ∈ entry_points ∧ point_gap p < gap) →
  let ascending := sorted point_gap entry_points false in
  ascending ≡ₚ entry_points
  ∧ StronglySorted (λ p q, point_gap p ≤ point_gap q) ascending
  ∧ (∃ p, last (filter (λ q, point_gap q < gap) ascending) = Some p
          ∧ buy_amount entry_points gap = Some (point_amount p)
          ∧ p ∈ entry_points ∧ point_gap p < gap
          ∧ ∀ q, q ∈ entry_points → point_gap q < gap →
                 point_gap q ≤ point_gap p)
  ∧ buy_amount default_entry_points (Q2Qc 0.045) = Some (Q2Qc 0.1).
Proof.
  intros Hsome ascending. subst ascending. split; [apply sorted_perm|].
  split; [apply (sorted_StronglySorted point_gap entry_points false)|].
  split; [|reflexivity].
  destruct (sorted_last_match point_gap (λ q, point_gap q < gap)
              entry_points false Hsome) as (p & Hlast & Hp & Hgap & Hmax).
  exists p. rewrite buy_amount_last_match, Hlast.
  by repeat split.
Qed.

Lemma C1_entry_trigger_selection_witness :
  buy_amount [ {| point_gap := Q2Qc 0.04; point_amount := Q2Qc 0.1 |};
               {| point_gap := Q2Qc 0.03; point_amount := Q2Qc 0.05 |} ]
             (Q2Qc 0.045)
  = Some (Q2Qc 0.1).
Proof.
  destruct (C1_entry_trigger_selection
              [ {| point_gap := Q2Qc 0.04; point_amount := Q2Qc 0.1 |};
                {| point_gap := Q2Qc 0.03; point_amount := Q2Qc 0.05 |} ]
              (Q2Qc 0.045)) as (_ & _ & (p & Hlast & Hbuy & _) & _).
  - exists {| point_gap := Q2Qc 0.04; point_amount := Q2Qc 0.1 |}.
    split; [left | reflexivity].
  - vm_compute in Hlast. injection Hlast as <-. exact Hbuy.
Defined.

Lemma place_order_with_points context entry exit amount buying_price selling_price action :
  place_order (with_points context entry exit) amount buying_price selling_price action
  = place_order context amount buying_price selling_price action.
Proof. reflexivity. Qed.

(** C2. Exit trigger selection: the exit rules are consulted only when no
    entry amount was selected (with an entry amount selected, the exit
    table has no influence on the bar); they are sorted descending by gap
    threshold and the selected amount is that of the last rule, in that
    order, whose threshold the gap is strictly below, a rule with the most
    negative threshold still undercut; with the single exit rule
    (-0.02, 0.5), gap -0.03 yields Exit(0.5) and gap -0.01 yields
    NoAction. *)
Theorem C2_exit_trigger_selection (context : Context)
    (buying_price selling_price gap : Qc) :
  let descending := sorted point_gap (exit_points context) true in
  (∀ a exit_points',
      truthy (buy_amount (entry_points context) gap) = Some a →
      handle_triggers (with_points context (entry_points context) exit_points')
        buying_price selling_price gap
      = handle_triggers context buying_price selling_price gap
      ∧ trigger_selector (entry_points context) exit_points' gap = Enter a)
  ∧ descending ≡ₚ exit_points context
  ∧ StronglySorted (λ p q, point_gap q ≤ point_gap p) descending
  ∧ sell_amount (exit_points context) gap
    = point_amount <$> last (filter (λ q, gap < point_gap q) descending)
  ∧ ((∃ p, p ∈ exit_points context ∧ gap < point_gap p) →
     ∃ p, last (filter (λ q, gap < point_gap q) descending) = Some p
          ∧ sell_amount (exit_points context) gap = Some (point_amount p)
          ∧ p ∈ exit_points context ∧ gap < point_gap p
          ∧ ∀ q, q ∈ exit_points context → gap < point_gap q →
                 point_gap p ≤ point_gap q)
  ∧ (truthy (buy_amount (entry_points context) gap) = None →
     exit_points context = [ {| point_gap := Q2Qc (-0.02);
                                point_amount := Q2Qc 0.5 |} ] →
     (gap = Q2Qc (-0.03) →
        trigger_selector (entry_points context) (exit_points context) gap
        = Exit (Q2Qc 0.5)
        ∧ handle_triggers context buying_price selling_price gap
          = (info (msg_sell_trigger (Q2Qc 0.5)) ;;
             place_order context (Q2Qc 0.5) buying_price selling_price "exit"))
     ∧ (gap = Q2Qc (-0.01) →
        trigger_selector (entry_points context) (exit_points context) gap
        = NoAction
        ∧ handle_triggers context buying_price selling_price gap = mret ())).
Proof.
  intros descending. subst descending.
  split.
  { intros a exit' Ha. unfold handle_triggers, trigger_selector; simpl.
    by rewrite Ha. }
  split; [apply sorted_perm|].
  split; [apply (sorted_StronglySorted point_gap (exit_points context) true)|].
  split; [apply sell_amount_last_match|].
  split.
  { intros Hsome.
    destruct (sorted_last_match point_gap (λ q, gap < point_gap q)
                (exit_points context) true Hsome) as (p & Hlast & Hp & Hgap & Hmin).
    exists p. rewrite sell_amount_last_match, Hlast. by repeat split. }
  intros Hentry Hexit.
  rewrite handle_triggers_act. unfold trigger_selector. rewrite Hentry, Hexit.
  split; intros ->; split; reflexivity.
Qed.

Lemma C2_exit_trigger_selection_witness :
  trigger_selector default_entry_points default_exit_points (Q2Qc (-0.03))
  = Exit (Q2Qc 0.5)
  ∧ trigger_selector default_entry_points [] (Q2Qc 0.045) = Enter (Q2Qc 0.1)
  ∧ sell_amount [ {| point_gap := Q2Qc (-0.02); point_amount := Q2Qc 0.5 |};
                  {| point_gap := Q2Qc (-0.04); point_amount := Q2Qc 2 |} ]
                (Q2Qc (-0.05))
    = Some (Q2Qc 2).
Proof.
  split; [|split].
  - destruct (C2_exit_trigger_selection
                (initialized (bittrex 0 ∅) (bitfinex 0 ∅)) 1 1 (Q2Qc (-0.03)))
      as (_ & _ & _ & _ & _ & Hex).
    destruct Hex as [Hex _]; [reflexivity..|].
    destruct Hex as [Hex _]; [reflexivity|]. exact Hex.
  - destruct (C2_exit_trigger_selection
                (initialized (bittrex 0 ∅) (bitfinex 0 ∅)) 1 1 (Q2Qc 0.045))
      as (Hen & _).
    destruct (Hen (Q2Qc 0.1) []) as [_ Hen']; [reflexivity|]. exact Hen'.
  - destruct (C2_exit_trigger_selection
                (with_points (initialized (bittrex 0 ∅) (bitfinex 0 ∅)) []
                   [ {| point_gap := Q2Qc (-0.02); point_amount := Q2Qc 0.5 |};
                     {| point_gap := Q2Qc (-0.04); point_amount := Q2Qc 2 |} ])
                1 1 (Q2Qc (-0.05)))
      as (_ & _ & _ & _ & Hsel & _).
    destruct Hsel as (p & Hlast & Hsell & _).
    + exists {| point_gap := Q2Qc (-0.02); point_amount := Q2Qc 0.5 |}.
      split; [left | reflexivity].
    + vm_compute in Hlast. injection Hlast as <-. exact Hsell.
Defined.

(** ** Order sizing *)

(** Every run of [place_order] places no order, or the buy order of some
    sized amount followed, when the sell leg's instrument is bound, by the
    sell order of the same amount. *)
Lemma place_order_cases context amount buying_price selling_price action :
  orders_of (trace (place_order context amount buying_price selling_price action)) = []
  ∨ ∃ L a buy_pair,
      legs context action buying_price selling_price = Some L
      ∧ pair_of context (buy_exchange L) = Some buy_pair
      ∧ (a = amount ∨ a = portfolio_cash (buy_exchange L) / buyPrice L)
      ∧ (pair_of context (sell_exchange L) = None
           ∧ orders_of (trace (place_order context amount buying_price
                                 selling_price action))
             = [buy_intent context L buy_pair a]
         ∨ ∃ sell_pair,
             pair_of context (sell_exchange L) = Some sell_pair
             ∧ orders_of (trace (place_order context amount buying_price
                                   selling_price action))
               = [buy_intent context L buy_pair a;
                  sell_intent context L sell_pair a]).
Proof.
  destruct (legs context action buying_price selling_price) as [L|] eqn:HL;
    [|left; by rewrite place_order_invalid_action].
  destruct (trading_pairs context !! name (selling_exchange context))
    as [selling_pair|] eqn:Hselling.
  2:{ left. unfold place_order, legs in *.
      repeat case_decide; simplify_eq;
        by rewrite M_bind_ret, (getitem_None _ _ Hselling). }
  rewrite (place_order_unfold _ _ _ _ _ L selling_pair HL Hselling).
  destruct (get_balances (sell_exchange L) !! market_currency selling_pair)
    as [marketAvail|]; [|by left].
  destruct (pair_of context (buy_exchange L)) as [buy_pair|] eqn:Hbuy;
    destruct (pair_of context (sell_exchange L)) as [sell_pair|] eqn:Hsell;
    unfold pair_of in *; unfold sized_amount, pydiv, getitem;
    rewrite ?Hbuy, ?Hsell; repeat case_decide; simpl; auto;
    right; exists L; eexists _, _; (split; [done|]); (split; [done|]);
    (split; [|first [by left | right; by eexists]]); auto.
Qed.

Lemma Qcopp_0 : - 0 = 0.
Proof. by apply Qc_is_canon. Qed.

Lemma Qcdiv_0_l (x : Qc) : 0 / x = 0.
Proof. unfold Qcdiv. apply Qcmult_0_l. Qed.

Lemma Qcdiv_pos (x y : Qc) : 0 < x → 0 < y → 0 < x / y.
Proof. intros Hx Hy. unfold Qcdiv. by apply Qcmult_pos_pos, Qcinv_pos. Qed.

Lemma Qcopp_neg (x : Qc) : 0 < x → - x < 0.
Proof.
  intros Hx. apply Qclt_minus_iff. by replace (0 + - - x) with x by ring.
Qed.

Lemma magnitude_opp (x : Qc) : (magnitude (- x) == magnitude x)%Q.
Proof.
  unfold magnitude, Qcopp, Q2Qc; simpl.
  by rewrite Qred_correct, Qabs_opp.
Qed.

(** Both legs of a bound context have their instrument. *)
Lemma bound_legs context action buying_price selling_price L buying_pair selling_pair :
  bound context buying_pair selling_pair →
  legs context action buying_price selling_price = Some L →
  ∃ buy_pair sell_pair,
    pair_of context (buy_exchange L) = Some buy_pair
    ∧ pair_of context (sell_exchange L) = Some sell_pair.
Proof.
  intros [Hb Hs]. unfold legs, pair_of.
  repeat case_decide; intros [= <-]; simpl; eauto.
Qed.

(** The fixtures are what [initialize] returns. *)
Lemma initialize_initialized cash balances cash' balances' :
  initialize neo_eth {[ "bittrex" := bittrex cash balances;
                        "bitfinex" := bitfinex cash' balances' ]}
  = ([Log INFO msg_initializing],
     Return (initialized (bittrex cash balances) (bitfinex cash' balances'))).
Proof. reflexivity. Qed.

Lemma initialized_bound buying selling :
  name buying ≠ name selling →
  bound (initialized buying selling)
    (neo_eth "neo_eth" (name buying)) (neo_eth "neo_eth" (name selling)).
Proof.
  intros Hne. split; simpl.
  - by rewrite lookup_insert_ne, lookup_insert_eq.
  - by rewrite lookup_insert_eq.
Qed.

(** C3 as stated does not hold: with a zero neo balance on the selling
    exchange, 100 eth of cash, a price of 10 and a requested amount of 20,
    the cash adjustment fires and two orders of amount 10 are placed. *)
Lemma C3_zero_balance_counterexample :
  get_balances (selling_exchange short_of_both) !! "neo" = Some (Q2Qc 0)
  ∧ exit_currency short_of_both = Some "neo"
  ∧ orders_of (trace (place_order short_of_both (Q2Qc 20) (Q2Qc 10) (Q2Qc 12)
                        "enter"))
    = [ {| order_asset := neo_eth "neo_eth" "bittrex";
           order_amount := Q2Qc 10;
           order_limit_price := Q2Qc 10.2 |};
        {| order_asset := neo_eth "neo_eth" "bitfinex";
           order_amount := Q2Qc (-10);
           order_limit_price := Q2Qc 11.76 |} ].
Proof.
  split; [reflexivity|]. split; [reflexivity|].
  rewrite (place_order_clamp short_of_both (Q2Qc 20) (Q2Qc 10) (Q2Qc 12) "enter"
             (enter_legs short_of_both (Q2Qc 10) (Q2Qc 12))
             (neo_eth "neo_eth" "bitfinex") eq_refl eq_refl
             (neo_eth "neo_eth" "bittrex") (neo_eth "neo_eth" "bitfinex")
             eq_refl eq_refl (Q2Qc 0) eq_refl); [|reflexivity|done].
  unfold trace, emission, buy_intent, sell_intent; simpl.
  repeat f_equal; by apply Qc_is_canon.
Qed.

(** C3, amended. When the sell-leg exchange's balances do not list the
    market currency, [place_order] only warns and places no order,
    whatever the amount, the prices and the cash.  When the currency is
    listed with balance 0, no order is placed provided the requested
    amount is positive and the cash adjustment does not fire. *)
Theorem C3_no_inventory_no_orders (context : Context)
    (amount buying_price selling_price : Qc) (action : string)
    (L : Legs) (selling_pair : TradingPair) :
  legs context action buying_price selling_price = Some L →
  trading_pairs context !! name (selling_exchange context) = Some selling_pair →
  let marketAvail := get_balances (sell_exchange L) !! market_currency selling_pair in
  let run := place_order context amount buying_price selling_price action in
  (marketAvail = None →
     run = warn (msg_does_not_hold (name (sell_exchange L))
                   (market_currency selling_pair))
     ∧ orders_of (trace run) = [] ∧ result run = Return ())
  ∧ (marketAvail = Some 0 → 0 < amount →
     ¬ portfolio_cash (buy_exchange L) < amount * buyPrice L →
     run = warn (msg_aborting (market_currency selling_pair) 0 amount)
     ∧ orders_of (trace run) = [] ∧ result run = Return ()).
Proof.
  intros HL Hselling marketAvail run. subst marketAvail run. split.
  - intros Hnone. by rewrite (place_order_absent _ _ _ _ _ L selling_pair).
  - intros Hzero Hamount Hcash.
    by rewrite (place_order_abort _ _ _ _ _ L selling_pair HL Hselling 0).
Qed.

Lemma C3_no_inventory_no_orders_witness :
  orders_of (trace (place_order short_of_inventory (Q2Qc 20) (Q2Qc 10) (Q2Qc 12)
                      "exit")) = []
  ∧ orders_of (trace (place_order
                        (initialized (bittrex (Q2Qc 1000) ∅)
                           (bitfinex 0 {[ "neo" := Q2Qc 0 ]}))
                        (Q2Qc 20) (Q2Qc 10) (Q2Qc 12) "enter")) = [].
Proof.
  split.
  - destruct (C3_no_inventory_no_orders short_of_inventory (Q2Qc 20) (Q2Qc 10)
                (Q2Qc 12) "exit"
                {| buy_exchange := selling_exchange short_of_inventory;
                   buyPrice := Q2Qc 12;
                   sell_exchange := buying_exchange short_of_inventory;
                   sellPrice := Q2Qc 10 |}
                (neo_eth "neo_eth" "bitfinex") eq_refl eq_refl) as [Habsent _].
    destruct Habsent as (_ & Horders & _); [reflexivity|]. exact Horders.
  - destruct (C3_no_inventory_no_orders
                (initialized (bittrex (Q2Qc 1000) ∅)
                   (bitfinex 0 {[ "neo" := Q2Qc 0 ]}))
                (Q2Qc 20) (Q2Qc 10) (Q2Qc 12) "enter"
                (enter_legs (initialized (bittrex (Q2Qc 1000) ∅)
                               (bitfinex 0 {[ "neo" := Q2Qc 0 ]}))
                   (Q2Qc 10) (Q2Qc 12))
                (neo_eth "neo_eth" "bitfinex") eq_refl eq_refl) as [_ Hzero].
    destruct Hzero as (_ & Horders & _);
      [reflexivity | reflexivity | by vm_compute |]. exact Horders.
Defined.

(** C4. Precedence of the shortage conditions: when the cash adjustment
    fires, the run is the adjusted pair of orders whatever the inventory,
    in particular when the inventory is short too, and no inventory
    warning is logged; the inventory-shortage return, with zero orders,
    happens only when the cash adjustment did not fire. *)
Theorem C4_cash_shortage_takes_precedence (context : Context)
    (amount buying_price selling_price : Qc) (action : string) (L : Legs)
    (selling_pair buy_pair sell_pair : TradingPair) (marketAvail : Qc) :
  legs context action buying_price selling_price = Some L →
  trading_pairs context !! name (selling_exchange context) = Some selling_pair →
  pair_of context (buy_exchange L) = Some buy_pair →
  pair_of context (sell_exchange L) = Some sell_pair →
  get_balances (sell_exchange L) !! market_currency selling_pair = Some marketAvail →
  let cashAvail := portfolio_cash (buy_exchange L) in
  let run := place_order context amount buying_price selling_price action in
  (cashAvail < amount * buyPrice L → buyPrice L ≠ 0 →
     run = (Log WARNING (msg_adjusting (base_currency (buy_exchange L)) cashAvail
                           amount (cashAvail / buyPrice L))
            :: emission context L buy_pair sell_pair (cashAvail / buyPrice L),
            Return ()))
  ∧ (cashAvail < amount * buyPrice L → marketAvail < amount → buyPrice L ≠ 0 →
     orders_of (trace run)
     = [ buy_intent context L buy_pair (cashAvail / buyPrice L);
         sell_intent context L sell_pair (cashAvail / buyPrice L) ]
     ∧ ∀ currency currency_amount amount',
         Log WARNING (msg_aborting currency currency_amount amount') ∉ trace run)
  ∧ (¬ cashAvail < amount * buyPrice L → marketAvail < amount →
     run = warn (msg_aborting (market_currency selling_pair) marketAvail amount)
     ∧ orders_of (trace run) = []).
Proof.
  intros HL Hselling Hbuy Hsell Hbal cashAvail run. subst cashAvail run.
  split; [|split].
  - intros Hcash Hprice. by eapply place_order_clamp.
  - intros Hcash Hmarket Hprice.
    erewrite place_order_clamp by done. split; [done|].
    intros currency currency_amount amount'. unfold trace, emission; simpl.
    rewrite !elem_of_cons, elem_of_nil.
    by intros [?|[?|[?|[?|[?|[]]]]]].
  - intros Hcash Hmarket. by erewrite place_order_abort.
Qed.

Lemma C4_cash_shortage_takes_precedence_witness :
  order_amount
    <$> orders_of (trace (place_order short_of_both (Q2Qc 20) (Q2Qc 10) (Q2Qc 12)
                            "enter"))
  = [ Q2Qc 100 / Q2Qc 10; - (Q2Qc 100 / Q2Qc 10) ]
  ∧ orders_of (trace (place_order short_of_inventory (Q2Qc 20) (Q2Qc 10)
                        (Q2Qc 12) "enter")) = [].
Proof.
  split.
  - destruct (C4_cash_shortage_takes_precedence short_of_both (Q2Qc 20) (Q2Qc 10)
                (Q2Qc 12) "enter" (enter_legs short_of_both (Q2Qc 10) (Q2Qc 12))
                (neo_eth "neo_eth" "bitfinex") (neo_eth "neo_eth" "bittrex")
                (neo_eth "neo_eth" "bitfinex") (Q2Qc 0)
                eq_refl eq_refl eq_refl eq_refl eq_refl) as (_ & Hboth & _).
    destruct Hboth as [Horders _]; [reflexivity | reflexivity | by vm_compute |].
    by rewrite Horders.
  - destruct (C4_cash_shortage_takes_precedence short_of_inventory (Q2Qc 20)
                (Q2Qc 10) (Q2Qc 12) "enter"
                (enter_legs short_of_inventory (Q2Qc 10) (Q2Qc 12))
                (neo_eth "neo_eth" "bitfinex") (neo_eth "neo_eth" "bittrex")
                (neo_eth "neo_eth" "bitfinex") (Q2Qc 5)
                eq_refl eq_refl eq_refl eq_refl eq_refl) as (_ & _ & Habort).
    destruct Habort as [_ Horders]; [by vm_compute | reflexivity |].
    exact Horders.
Defined.

(** C5. Cash-shortage clamping: when the buy-leg cash is below
    amount * buyPrice, the amount becomes cashAvail / buyPrice and the two
    orders are placed with it (the sell leg with its negation); with cash
    100, price 10 and requested amount 20 both orders use 10. *)
Theorem C5_cash_shortage_clamp (context : Context)
    (amount buying_price selling_price : Qc) (action : string) (L : Legs)
    (selling_pair buy_pair sell_pair : TradingPair) (marketAvail : Qc) :
  legs context action buying_price selling_price = Some L →
  trading_pairs context !! name (selling_exchange context) = Some selling_pair →
  pair_of context (buy_exchange L) = Some buy_pair →
  pair_of context (sell_exchange L) = Some sell_pair →
  get_balances (sell_exchange L) !! market_currency selling_pair = Some marketAvail →
  let cashAvail := portfolio_cash (buy_exchange L) in
  let run := place_order context amount buying_price selling_price action in
  0 < amount → buyPrice L ≠ 0 →
  cashAvail < amount * buyPrice L →
  result run = Return ()
  ∧ orders_of (trace run)
    = [ {| order_asset := buy_pair;
           order_amount := cashAvail / buyPrice L;
           order_limit_price := buyPrice L * (1 + SLIPPAGE_ALLOWED context) |};
        {| order_asset := sell_pair;
           order_amount := - (cashAvail / buyPrice L);
           order_limit_price := sellPrice L * (1 - SLIPPAGE_ALLOWED context) |} ]
  ∧ (cashAvail = Q2Qc 100 → buyPrice L = Q2Qc 10 → amount = Q2Qc 20 →
     order_amount <$> orders_of (trace run) = [ Q2Qc 10; - Q2Qc 10 ]).
Proof.
  intros HL Hselling Hbuy Hsell Hbal cashAvail run Hamount Hprice Hcash.
  subst cashAvail run. erewrite place_order_clamp by done.
  split; [done|]. split; [done|].
  intros -> -> _. unfold trace, emission; simpl.
  by replace (Q2Qc 100 / Q2Qc 10) with (Q2Qc 10) by by apply Qc_is_canon.
Qed.

Lemma C5_cash_shortage_clamp_witness :
  order_amount
    <$> orders_of (trace (place_order short_of_cash (Q2Qc 20) (Q2Qc 10) (Q2Qc 12)
                            "enter"))
  = [ Q2Qc 10; - Q2Qc 10 ].
Proof.
  destruct (C5_cash_shortage_clamp short_of_cash (Q2Qc 20) (Q2Qc 10) (Q2Qc 12)
              "enter" (enter_legs short_of_cash (Q2Qc 10) (Q2Qc 12))
              (neo_eth "neo_eth" "bitfinex") (neo_eth "neo_eth" "bittrex")
              (neo_eth "neo_eth" "bitfinex") (Q2Qc 50)
              eq_refl eq_refl eq_refl eq_refl eq_refl)
    as (_ & _ & Hexample); [reflexivity | by vm_compute | reflexivity |].
  by apply Hexample.
Defined.

(** C10. With a positive requested amount and a positive buy price, the
    market currency listed in the sell-leg balances and no cash at all on
    the buy leg, [place_order] still places two orders, each of amount 0. *)
Theorem C10_zero_cash_still_orders (context : Context)
    (amount buying_price selling_price : Qc) (action : string) (L : Legs)
    (selling_pair buy_pair sell_pair : TradingPair) (marketAvail : Qc) :
  legs context action buying_price selling_price = Some L →
  trading_pairs context !! name (selling_exchange context) = Some selling_pair →
  pair_of context (buy_exchange L) = Some buy_pair →
  pair_of context (sell_exchange L) = Some sell_pair →
  get_balances (sell_exchange L) !! market_currency selling_pair = Some marketAvail →
  0 < amount → 0 < buyPrice L →
  portfolio_cash (buy_exchange L) = 0 →
  let run := place_order context amount buying_price selling_price action in
  result run = Return ()
  ∧ orders_of (trace run)
    = [ {| order_asset := buy_pair; order_amount := 0;
           order_limit_price := buyPrice L * (1 + SLIPPAGE_ALLOWED context) |};
        {| order_asset := sell_pair; order_amount := 0;
           order_limit_price := sellPrice L * (1 - SLIPPAGE_ALLOWED context) |} ].
Proof.
  intros HL Hselling Hbuy Hsell Hbal Hamount Hprice Hcash run. subst run.
  erewrite place_order_clamp; [| done.. | |].
  - unfold trace, emission, buy_intent, sell_intent; simpl.
    by rewrite Hcash, Qcdiv_0_l, Qcopp_0.
  - rewrite Hcash. by apply Qcmult_pos_pos.
  - intros Hzero. rewrite Hzero in Hprice. by apply Qclt_not_eq in Hprice.
Qed.

Lemma C10_zero_cash_still_orders_witness :
  order_amount
    <$> orders_of (trace (place_order no_cash (Q2Qc 20) (Q2Qc 10) (Q2Qc 12)
                            "enter"))
  = [ 0; 0 ].
Proof.
  destruct (C10_zero_cash_still_orders no_cash (Q2Qc 20) (Q2Qc 10) (Q2Qc 12)
              "enter" (enter_legs no_cash (Q2Qc 10) (Q2Qc 12))
              (neo_eth "neo_eth" "bitfinex") (neo_eth "neo_eth" "bittrex")
              (neo_eth "neo_eth" "bitfinex") (Q2Qc 50)
              eq_refl eq_refl eq_refl eq_refl eq_refl)
    as [_ Horders]; [reflexivity | reflexivity | reflexivity |].
  by rewrite Horders.
Defined.

(** The run with 100 eth of cash, price 10 and requested amount 20. *)
Lemma short_of_cash_run :
  place_order short_of_cash (Q2Qc 20) (Q2Qc 10) (Q2Qc 12) "enter"
  = (Log WARNING (msg_adjusting "eth" (Q2Qc 100) (Q2Qc 20) (Q2Qc 100 / Q2Qc 10))
     :: emission short_of_cash (enter_legs short_of_cash (Q2Qc 10) (Q2Qc 12))
          (neo_eth "neo_eth" "bittrex") (neo_eth "neo_eth" "bitfinex")
          (Q2Qc 100 / Q2Qc 10),
     Return ()).
Proof.
  by apply (place_order_clamp short_of_cash (Q2Qc 20) (Q2Qc 10) (Q2Qc 12) "enter"
              (enter_legs short_of_cash (Q2Qc 10) (Q2Qc 12))
              (neo_eth "neo_eth" "bitfinex") eq_refl eq_refl
              (neo_eth "neo_eth" "bittrex") (neo_eth "neo_eth" "bitfinex")
              eq_refl eq_refl (Q2Qc 50) eq_refl).
Qed.

(** C7. Whenever [place_order] places orders, it places exactly two: the
    buy leg with the sized amount and the sell leg with its negation, so
    the two amounts have equal magnitude and cancel out; with positive
    requested amount, cash and price the buy amount is positive and the
    sell amount negative. *)
Theorem C7_paired_orders (context : Context)
    (amount buying_price selling_price : Qc) (action : string)
    (buying_pair selling_pair : TradingPair) :
  bound context buying_pair selling_pair →
  let placed :=
    orders_of (trace (place_order context amount buying_price selling_price
                        action)) in
  placed ≠ [] →
  ∃ buy sell,
    placed = [buy; sell]
    ∧ order_amount sell = - order_amount buy
    ∧ (magnitude (order_amount sell) == magnitude (order_amount buy))%Q
    ∧ order_amount buy + order_amount sell = 0
    ∧ ∀ L, legs context action buying_price selling_price = Some L →
           0 < amount → 0 < portfolio_cash (buy_exchange L) → 0 < buyPrice L →
           0 < order_amount buy ∧ order_amount sell < 0.
Proof.
  intros Hbound placed Hplaced. subst placed.
  destruct (place_order_cases context amount buying_price selling_price action)
    as [Hnone|(L & a & buy_pair & HL & Hbuy & Ha & Hcases)]; [done|].
  destruct (bound_legs _ _ _ _ _ _ _ Hbound HL) as (? & sell_pair & _ & Hsell).
  destruct Hcases as [[Hunbound _]|(sell_pair' & _ & Horders)]; [congruence|].
  exists (buy_intent context L buy_pair a), (sell_intent context L sell_pair' a).
  split; [done|]. simpl.
  split; [done|]. split; [apply magnitude_opp|]. split; [apply Qcplus_opp_r|].
  intros L' HL' Hamount Hcash Hprice. simplify_eq.
  assert (0 < a) as Hpos by (destruct Ha as [->| ->]; auto using Qcdiv_pos).
  auto using Qcopp_neg.
Qed.

Lemma C7_paired_orders_witness :
  ∃ buy sell,
    orders_of (trace (place_order short_of_cash (Q2Qc 20) (Q2Qc 10) (Q2Qc 12)
                        "enter")) = [buy; sell]
    ∧ order_amount sell = - order_amount buy.
Proof.
  destruct (C7_paired_orders short_of_cash (Q2Qc 20) (Q2Qc 10) (Q2Qc 12) "enter"
              (neo_eth "neo_eth" "bittrex") (neo_eth "neo_eth" "bitfinex"))
    as (buy & sell & Hplaced & Hopp & _).
  - split; reflexivity.
  - discriminate.
  - by exists buy, sell.
Defined.

(** C8. Slippage-adjusted limit prices: for every pair of orders placed,
    the buy leg's limit price is buyPrice * (1 + slippage_allowed) and the
    sell leg's is sellPrice * (1 - slippage_allowed); for a slippage
    allowance of 0.02 these are buyPrice * 1.02 and sellPrice * 0.98. *)
Theorem C8_limit_prices (context : Context)
    (amount buying_price selling_price : Qc) (action : string) (L : Legs)
    (buy sell : OrderIntent) :
  legs context action buying_price selling_price = Some L →
  orders_of (trace (place_order context amount buying_price selling_price action))
  = [buy; sell] →
  order_limit_price buy = buyPrice L * (1 + SLIPPAGE_ALLOWED context)
  ∧ order_limit_price sell = sellPrice L * (1 - SLIPPAGE_ALLOWED context)
  ∧ (SLIPPAGE_ALLOWED context = Q2Qc 0.02 →
     order_limit_price buy = buyPrice L * Q2Qc 1.02
     ∧ order_limit_price sell = sellPrice L * Q2Qc 0.98).
Proof.
  intros HL Hplaced.
  destruct (place_order_cases context amount buying_price selling_price action)
    as [Hnone|(L' & a & buy_pair & HL' & Hbuy & Ha & Hcases)]; [congruence|].
  destruct Hcases as [[_ Hone]|(sell_pair & _ & Htwo)]; [congruence|].
  simplify_eq. rewrite Htwo in Hplaced. injection Hplaced as <- <-. simpl.
  split; [done|]. split; [done|].
  intros ->.
  replace (1 + Q2Qc 0.02) with (Q2Qc 1.02) by by apply Qc_is_canon.
  by replace (1 - Q2Qc 0.02) with (Q2Qc 0.98) by by apply Qc_is_canon.
Qed.

Lemma C8_limit_prices_witness :
  let buy := {| order_asset := neo_eth "neo_eth" "bittrex";
                order_amount := Q2Qc 100 / Q2Qc 10;
                order_limit_price := Q2Qc 10 * (1 + Q2Qc 0.02) |} in
  let sell := {| order_asset := neo_eth "neo_eth" "bitfinex";
                 order_amount := - (Q2Qc 100 / Q2Qc 10);
                 order_limit_price := Q2Qc 12 * (1 - Q2Qc 0.02) |} in
  orders_of (trace (place_order short_of_cash (Q2Qc 20) (Q2Qc 10) (Q2Qc 12)
                      "enter")) = [buy; sell]
  ∧ order_limit_price buy = Q2Qc 10 * Q2Qc 1.02
  ∧ order_limit_price sell = Q2Qc 12 * Q2Qc 0.98.
Proof.
  intros buy sell.
  assert (orders_of (trace (place_order short_of_cash (Q2Qc 20) (Q2Qc 10)
                              (Q2Qc 12) "enter")) = [buy; sell]) as Hplaced.
  { by rewrite short_of_cash_run. }
  split; [exact Hplaced|].
  destruct (C8_limit_prices short_of_cash (Q2Qc 20) (Q2Qc 10) (Q2Qc 12) "enter"
              (enter_legs short_of_cash (Q2Qc 10) (Q2Qc 12)) buy sell
              eq_refl Hplaced) as (_ & _ & Hlimits).
  by apply Hlimits.
Defined.

(** ** The open-order gate and the gap *)

(** With an order open somewhere, the loop never reaches the rest of the
    bar. *)
Lemma open_order_gate_skips api pairs continue_ continue_' :
  (∃ exchange asset, (exchange, asset) ∈ pairs ∧ get_open_orders api asset ≠ []) →
  open_order_gate api pairs continue_ = open_order_gate api pairs continue_'.
Proof.
  induction pairs as [|[e' a'] pairs IH]; intros (e0 & a0 & Hin & Ha0).
  - by apply elem_of_nil in Hin.
  - simpl. destruct (get_open_orders api a') as [|o os] eqn:Ha'; [|done].
    apply elem_of_cons in Hin as [[= -> ->]|Hin]; [done|].
    apply IH. eauto.
Qed.

Lemma open_order_gate_no_orders api pairs continue_ :
  (∃ exchange asset, (exchange, asset) ∈ pairs ∧ get_open_orders api asset ≠ []) →
  orders_of (trace (open_order_gate api pairs continue_)) = [].
Proof.
  intros Hopen.
  by destruct (open_order_gate_closed api pairs continue_ Hopen) as (? & ? & _ & ->).
Qed.

(** A bar that stops before the loop over open orders: an exchange
    without instrument, or a buying price of zero.  It raises, places no
    order and does not depend on the rule tables. *)
Lemma handle_data_early api context data :
  (∀ buying_pair selling_pair,
     bound context buying_pair selling_pair → current_price data buying_pair = 0) →
  ∃ t e,
    orders_of t = []
    ∧ handle_data api context data = (t, Raise e)
    ∧ ∀ entry exit,
        handle_data api (with_points context entry exit) data = (t, Raise e).
Proof.
  intros Hearly.
  destruct (trading_pairs context !! name (buying_exchange context))
    as [buying_pair|] eqn:Hb.
  2:{ exists [Log INFO (msg_handling_bar (current_dt data))],
        (KeyError (name (buying_exchange context))).
      split; [done|].
      split; [|intros entry exit]; unfold handle_data, info;
        cbn [with_points trading_pairs buying_exchange selling_exchange];
        by rewrite (getitem_None _ _ Hb), M_bind_raise, M_bind_emit. }
  destruct (trading_pairs context !! name (selling_exchange context))
    as [selling_pair|] eqn:Hs.
  2:{ exists [Log INFO (msg_handling_bar (current_dt data));
              Log INFO (msg_price_buying (name (buying_exchange context))
                          (current_price data buying_pair))],
        (KeyError (name (selling_exchange context))).
      split; [done|].
      split; [|intros entry exit]; unfold handle_data, info;
        cbn [with_points trading_pairs buying_exchange selling_exchange];
        by rewrite (getitem_Some _ _ _ Hb), M_bind_ret, (getitem_None _ _ Hs),
          M_bind_raise, !M_bind_emit. }
  exists [Log INFO (msg_handling_bar (current_dt data));
          Log INFO (msg_price_buying (name (buying_exchange context))
                      (current_price data buying_pair));
          Log INFO (msg_price_selling (name (selling_exchange context))
                      (current_price data selling_pair))],
    ZeroDivisionError.
  split; [done|].
  split; [|intros entry exit]; unfold handle_data, price_gap, pydiv, info;
    cbn [with_points trading_pairs buying_exchange selling_exchange];
    rewrite (getitem_Some _ _ _ Hb), M_bind_ret, (getitem_Some _ _ _ Hs),
      M_bind_ret, decide_True by (by apply (Hearly buying_pair selling_pair));
    by rewrite M_bind_raise, !M_bind_emit.
Qed.

(** C6. Open-order gate: on a bar where some configured exchange has an
    open order for the instrument, [handle_data] places no order,
    whatever the prices and the gap; the check comes before trigger
    selection, so the bar is the same whatever the rule tables are. *)
Theorem C6_open_order_gate (api : Api) (context : Context) (data : BarData)
    (exchange : string) (asset : TradingPair) :
  trading_pairs context !! exchange = Some asset →
  get_open_orders api asset ≠ [] →
  orders_of (trace (handle_data api context data)) = []
  ∧ ∀ entry_points' exit_points',
      handle_data api (with_points context entry_points' exit_points') data
      = handle_data api context data.
Proof.
  intros Hasset Hopen.
  assert (∃ exchange asset,
            (exchange, asset) ∈ map_to_list (trading_pairs context)
            ∧ get_open_orders api asset ≠ []) as Hclosed.
  { exists exchange, asset. by rewrite elem_of_map_to_list. }
  destruct (trading_pairs context !! name (buying_exchange context))
    as [buying_pair|] eqn:Hb;
    [destruct (trading_pairs context !! name (selling_exchange context))
       as [selling_pair|] eqn:Hs;
     [destruct (decide (current_price data buying_pair = 0)) as [Hzero|Hprice]|]|].
  2:{ assert (bound context buying_pair selling_pair) as Hbound by done.
      rewrite (handle_data_unfold api context data _ _ Hbound Hprice).
      split.
      - unfold trace at 1; simpl. by apply open_order_gate_no_orders.
      - intros entry exit.
        rewrite (handle_data_unfold api (with_points context entry exit) data
                   _ _ Hbound Hprice).
        cbn [with_points trading_pairs].
        by rewrite (open_order_gate_skips api _ _
                      (handle_triggers context (current_price data buying_pair)
                         (current_price data selling_pair)
                         ((current_price data selling_pair
                           - current_price data buying_pair)
                          / current_price data buying_pair)) Hclosed). }
  all: destruct (handle_data_early api context data) as (t & e & Ht & -> & Heq);
    [unfold bound; intros ?? [??]; congruence|].
  all: split; [done|]; intros entry exit; by rewrite Heq.
Qed.

Lemma C6_open_order_gate_witness :
  orders_of
    (trace (handle_data (open_on "bitfinex")
              (initialized (bittrex (Q2Qc 1000) {[ "neo" := Q2Qc 50 ]})
                 (bitfinex (Q2Qc 1000) {[ "neo" := Q2Qc 50 ]}))
              (bar (Q2Qc 25) (Q2Qc 50)))) = []
  ∧ orders_of
      (trace (handle_data no_open_orders
                (initialized (bittrex (Q2Qc 1000) {[ "neo" := Q2Qc 50 ]})
                   (bitfinex (Q2Qc 1000) {[ "neo" := Q2Qc 50 ]}))
                (bar (Q2Qc 25) (Q2Qc 50)))) ≠ [].
Proof.
  split.
  - eapply (C6_open_order_gate (open_on "bitfinex") _ _ "bitfinex"
              (neo_eth "neo_eth" "bitfinex")); [reflexivity | discriminate].
  - vm_compute. discriminate.
Defined.

(** C9. Gap computation: for a positive buying price Pb and any selling
    price Ps, the gap computed and recorded by [handle_data] is
    (Ps - Pb) / Pb, the difference relative to the buying price; for
    Pb = 25 and Ps = 50 it is 1. *)
Theorem C9_gap_computation (Pb Ps : Qc) :
  0 < Pb →
  price_gap Pb Ps = mret ((Ps - Pb) / Pb)
  ∧ (Ps - Pb) / Pb * Pb = Ps - Pb
  ∧ price_gap (Q2Qc 25) (Q2Qc 50) = mret 1
  ∧ ∀ api context data buying_pair selling_pair,
      bound context buying_pair selling_pair →
      current_price data buying_pair = Pb →
      current_price data selling_pair = Ps →
      Recorded Pb Ps ((Ps - Pb) / Pb) ∈ trace (handle_data api context data).
Proof.
  intros HPb.
  assert (Pb ≠ 0) as Hne by (intros ->; by apply Qclt_not_eq in HPb).
  split; [|split; [|split]].
  - unfold price_gap, pydiv. by rewrite decide_False.
  - rewrite Qcmult_comm. by apply Qcmult_div_r.
  - unfold price_gap, pydiv. rewrite decide_False by done.
    f_equal. by apply Qc_is_canon.
  - intros api context data buying_pair selling_pair Hbound <- <-.
    rewrite (handle_data_unfold api context data _ _ Hbound Hne).
    unfold trace at 1, preamble; simpl.
    rewrite !elem_of_cons. auto 10.
Qed.

Lemma C9_gap_computation_witness :
  price_gap (Q2Qc 10) (Q2Qc 12) = mret (Q2Qc 0.2)
  ∧ Recorded (Q2Qc 10) (Q2Qc 12) ((Q2Qc 12 - Q2Qc 10) / Q2Qc 10)
    ∈ trace (handle_data no_open_orders short_of_cash (bar (Q2Qc 10) (Q2Qc 12))).
Proof.
  destruct (C9_gap_computation (Q2Qc 10) (Q2Qc 12)) as (Hgap & _ & _ & Hrecorded);
    [reflexivity|].
  split.
  - rewrite Hgap. f_equal; by apply Qc_is_canon.
  - by apply (Hrecorded no_open_orders short_of_cash (bar (Q2Qc 10) (Q2Qc 12))
                (neo_eth "neo_eth" "bittrex") (neo_eth "neo_eth" "bitfinex")).
Defined.

(** * Further properties of the code *)

(** ** Every outcome of [place_order] *)

(** With both legs bound, a run of [place_order] is one of five: the
    currency is not listed; the adjustment divides by a zero price; the
    adjusted pair; the inventory return; the requested pair. *)
Lemma place_order_outcome context amount buying_price selling_price action L
    selling_pair buy_pair sell_pair :
  legs context action buying_price selling_price = Some L →
  trading_pairs context !! name (selling_exchange context) = Some selling_pair →
  pair_of context (buy_exchange L) = Some buy_pair →
  pair_of context (sell_exchange L) = Some sell_pair →
  let run := place_order context amount buying_price selling_price action in
  let cashAvail := portfolio_cash (buy_exchange L) in
  (get_balances (sell_exchange L) !! market_currency selling_pair = None
   ∧ run = warn (msg_does_not_hold (name (sell_exchange L))
                   (market_currency selling_pair)))
  ∨ ∃ marketAvail,
      get_balances (sell_exchange L) !! market_currency selling_pair
      = Some marketAvail
      ∧ ((cashAvail < amount * buyPrice L ∧ buyPrice L = 0
          ∧ run = raise ZeroDivisionError)
         ∨ (cashAvail < amount * buyPrice L ∧ buyPrice L ≠ 0
            ∧ run = (Log WARNING (msg_adjusting (base_currency (buy_exchange L))
                                    cashAvail amount (cashAvail / buyPrice L))
                     :: emission context L buy_pair sell_pair
                          (cashAvail / buyPrice L),
                     Return ()))
         ∨ (¬ cashAvail < amount * buyPrice L ∧ marketAvail < amount
            ∧ run = warn (msg_aborting (market_currency selling_pair)
                            marketAvail amount))
         ∨ (¬ cashAvail < amount * buyPrice L ∧ ¬ marketAvail < amount
            ∧ run = (emission context L buy_pair sell_pair amount, Return ()))).
Proof.
  intros HL Hselling Hbuy Hsell run cashAvail. subst run cashAvail.
  destruct (get_balances (sell_exchange L) !! market_currency selling_pair)
    as [marketAvail|] eqn:Hbal.
  2:{ left. split; [done|]. by eapply place_order_absent. }
  right. exists marketAvail. split; [done|].
  destruct (decide (portfolio_cash (buy_exchange L) < amount * buyPrice L))
    as [Hcash|Hcash].
  - destruct (decide (buyPrice L = 0)) as [Hzero|Hprice].
    + left. repeat split; [done..|]. by eapply place_order_zero_division.
    + right; left. repeat split; [done..|]. by eapply place_order_clamp.
  - destruct (decide (marketAvail < amount)) as [Hmarket|Hmarket].
    + do 2 right; left. repeat split; [done..|]. by eapply place_order_abort.
    + do 3 right. repeat split; [done..|]. by eapply place_order_plain.
Qed.

(** X1. An action other than 'enter' and 'exit' makes [place_order]
    raise ValueError before anything is read, logged or ordered; no other
    run of [place_order] raises ValueError. *)
Theorem X1_invalid_action (context : Context)
    (amount buying_price selling_price : Qc) (action : string) :
  let run := place_order context amount buying_price selling_price action in
  (action ≠ "enter" → action ≠ "exit" →
   run = raise (ValueError "invalid order action"))
  ∧ (∀ message, result run = Raise (ValueError message) →
     action ≠ "enter" ∧ action ≠ "exit").
Proof.
  intros run. subst run. split.
  - intros Henter Hexit. apply place_order_invalid_action.
    unfold legs. by rewrite !decide_False.
  - intros message.
    destruct (legs context action buying_price selling_price) as [L|] eqn:HL.
    2:{ unfold legs in HL. by repeat case_decide. }
    intros Hraise. exfalso. revert Hraise.
    destruct (trading_pairs context !! name (selling_exchange context))
      as [selling_pair|] eqn:Hselling.
    2:{ unfold place_order, legs in *.
        repeat case_decide; simplify_eq;
          by rewrite M_bind_ret, (getitem_None _ _ Hselling). }
    rewrite (place_order_unfold _ _ _ _ _ L selling_pair HL Hselling).
    destruct (get_balances (sell_exchange L) !! market_currency selling_pair);
      [|done].
    unfold sized_amount, pydiv, getitem.
    repeat (case_decide || case_match); simpl; done.
Qed.

Lemma X1_invalid_action_witness :
  place_order well_funded (Q2Qc 1) (Q2Qc 10) (Q2Qc 12) "hold"
  = ([], Raise (ValueError "invalid order action")).
Proof.
  destruct (X1_invalid_action well_funded (Q2Qc 1) (Q2Qc 10) (Q2Qc 12) "hold")
    as [Hraise _].
  apply Hraise; discriminate.
Defined.

(** X2. With both exchanges bound and a valid action, [place_order]
    returns normally except in one case: the market currency is listed,
    the buy-leg price is zero and the buy-leg cash is negative; it then
    raises ZeroDivisionError with nothing logged or ordered. *)
Theorem X2_place_order_only_zero_division (context : Context)
    (amount buying_price selling_price : Qc) (action : string) (L : Legs)
    (buying_pair selling_pair : TradingPair) :
  bound context buying_pair selling_pair →
  legs context action buying_price selling_price = Some L →
  let run := place_order context amount buying_price selling_price action in
  (result run = Return () ∨ run = raise ZeroDivisionError)
  ∧ (run = raise ZeroDivisionError
     ↔ buyPrice L = 0 ∧ portfolio_cash (buy_exchange L) < 0
       ∧ is_Some (get_balances (sell_exchange L) !! market_currency selling_pair)).
Proof.
  intros Hbound HL run. subst run.
  destruct (bound_legs _ _ _ _ _ _ _ Hbound HL) as (buy_pair & sell_pair & Hbuy & Hsell).
  destruct Hbound as [_ Hselling].
  destruct (place_order_outcome context amount buying_price selling_price action
              L selling_pair buy_pair sell_pair HL Hselling Hbuy Hsell)
    as [[Hnone ->]|(m & Hm & [(Hcash & Hzero & ->)|[(Hcash & Hprice & ->)|
         [(Hcash & Hmarket & ->)|(Hcash & Hmarket & ->)]]])];
    rewrite ?Hnone, ?Hm.
  - split; [by left|]. split; [done|]. by intros (_ & _ & [? ?]).
  - split; [by right|]. split; [|done]. intros _.
    rewrite Hzero, Qcmult_0_r in Hcash. by eauto.
  - split; [by left|]. split; [done|]. by intros (? & _).
  - split; [by left|]. split; [done|]. intros (Hzero & Hneg & _).
    by rewrite Hzero, Qcmult_0_r in Hcash.
  - split; [by left|]. split; [done|]. intros (Hzero & Hneg & _).
    by rewrite Hzero, Qcmult_0_r in Hcash.
Qed.

Lemma X2_place_order_only_zero_division_witness :
  place_order (initialized (bittrex (Q2Qc (-1)) ∅)
                 (bitfinex 0 {[ "neo" := Q2Qc 5 ]}))
    (Q2Qc 1) 0 (Q2Qc 12) "enter"
  = ([], Raise ZeroDivisionError).
Proof.
  destruct (X2_place_order_only_zero_division
              (initialized (bittrex (Q2Qc (-1)) ∅)
                 (bitfinex 0 {[ "neo" := Q2Qc 5 ]}))
              (Q2Qc 1) 0 (Q2Qc 12) "enter"
              (enter_legs (initialized (bittrex (Q2Qc (-1)) ∅)
                             (bitfinex 0 {[ "neo" := Q2Qc 5 ]})) 0 (Q2Qc 12))
              (neo_eth "neo_eth" "bittrex") (neo_eth "neo_eth" "bitfinex"))
    as [_ [_ Hraise]]; [by split | reflexivity |].
  apply Hraise. split; [reflexivity|]. split; [reflexivity|]. by eexists.
Defined.

(** X3. With both exchanges bound, a valid action, the market currency
    listed and a non-zero buy-leg price, [place_order] places orders
    exactly when the cash adjustment fires or the inventory covers the
    requested amount. *)
Theorem X3_orders_placed_iff (context : Context)
    (amount buying_price selling_price : Qc) (action : string) (L : Legs)
    (buying_pair selling_pair : TradingPair) (marketAvail : Qc) :
  bound context buying_pair selling_pair →
  legs context action buying_price selling_price = Some L →
  get_balances (sell_exchange L) !! market_currency selling_pair = Some marketAvail →
  buyPrice L ≠ 0 →
  orders_of (trace (place_order context amount buying_price selling_price action))
  ≠ []
  ↔ portfolio_cash (buy_exchange L) < amount * buyPrice L ∨ amount ≤ marketAvail.
Proof.
  intros Hbound HL Hbal Hprice.
  destruct (bound_legs _ _ _ _ _ _ _ Hbound HL) as (buy_pair & sell_pair & Hbuy & Hsell).
  destruct Hbound as [_ Hselling].
  destruct (place_order_outcome context amount buying_price selling_price action
              L selling_pair buy_pair sell_pair HL Hselling Hbuy Hsell)
    as [[Hnone _]|(m & Hm & [(Hcash & Hzero & ->)|[(Hcash & _ & ->)|
         [(Hcash & Hmarket & ->)|(Hcash & Hmarket & ->)]]])];
    [congruence|done| | |]; simplify_eq.
  - split; [by left|done].
  - split; [done|]. intros [?|Hle]; [done|]. by apply Qcle_ngt in Hle.
  - split; [|done]. intros _. right. by apply Qcle_ngt.
Qed.

Lemma X3_orders_placed_iff_witness :
  orders_of (trace (place_order well_funded (Q2Qc 20) (Q2Qc 10) (Q2Qc 12) "enter"))
  ≠ [].
Proof.
  apply (X3_orders_placed_iff well_funded (Q2Qc 20) (Q2Qc 10) (Q2Qc 12) "enter"
           (enter_legs well_funded (Q2Qc 10) (Q2Qc 12))
           (neo_eth "neo_eth" "bittrex") (neo_eth "neo_eth" "bitfinex") (Q2Qc 50));
    [by split | reflexivity | reflexivity | discriminate |].
  right. by vm_compute.
Defined.





(** X7. 'exit' is 'enter' with the roles inverted: when the two
    instruments have the same market currency, [place_order] with action
    'exit' runs exactly as action 'enter' does on the context with the
    exchanges swapped and the two prices exchanged. *)
Theorem X7_exit_is_enter_with_roles_swapped (context : Context)
    (amount buying_price selling_price : Qc)
    (buying_pair selling_pair : TradingPair) :
  bound context buying_pair selling_pair →
  market_currency buying_pair = market_currency selling_pair →
  place_order context amount buying_price selling_price "exit"
  = place_order (swap_roles context) amount selling_price buying_price "enter".
Proof.
  intros [Hb Hs] Hcurrency.
  rewrite (place_order_unfold context amount buying_price selling_price "exit"
             (exit_legs context buying_price selling_price) selling_pair
             eq_refl Hs).
  rewrite (place_order_unfold (swap_roles context) amount selling_price
             buying_price "enter"
             (exit_legs context buying_price selling_price) buying_pair
             eq_refl Hb).
  by rewrite Hcurrency.
Qed.

Lemma X7_exit_is_enter_with_roles_swapped_witness :
  place_order well_funded (Q2Qc 2) (Q2Qc 10) (Q2Qc 12) "exit"
  = place_order (swap_roles well_funded) (Q2Qc 2) (Q2Qc 12) (Q2Qc 10) "enter".
Proof.
  by apply (X7_exit_is_enter_with_roles_swapped well_funded (Q2Qc 2) (Q2Qc 10)
              (Q2Qc 12) (neo_eth "neo_eth" "bittrex") (neo_eth "neo_eth" "bitfinex")).
Defined.

(** ** More on trigger selection *)

Lemma last_filter_None {A} (P : A → Prop) `{!∀ x, Decision (P x)} (l : list A) :
  last (filter P l) = None ↔ ∀ x, x ∈ l → ¬ P x.
Proof.
  rewrite last_None. split.
  - intros Hnil x Hx HP.
    assert (x ∈ filter P l) as Hin by by apply list_elem_of_filter.
    rewrite Hnil in Hin. by apply elem_of_nil in Hin.
  - intros Hnone. destruct (filter P l) as [|x l'] eqn:Hf; [done|].
    assert (x ∈ filter P l) as [HP Hx]%list_elem_of_filter by (rewrite Hf; left).
    by destruct (Hnone x).
Qed.

Lemma buy_amount_None entry_points gap :
  buy_amount entry_points gap = None
  ↔ ∀ p, p ∈ entry_points → gap ≤ point_gap p.
Proof.
  rewrite buy_amount_last_match, fmap_None, last_filter_None.
  split; intros H p Hp.
  - apply Qcle_ngt, H. by rewrite sorted_perm.
  - apply Qcle_ngt, H. by rewrite <-(sorted_perm point_gap entry_points false).
Qed.

Lemma sell_amount_None exit_points gap :
  sell_amount exit_points gap = None
  ↔ ∀ p, p ∈ exit_points → point_gap p ≤ gap.
Proof.
  rewrite sell_amount_last_match, fmap_None, last_filter_None.
  split; intros H p Hp.
  - apply Qcle_ngt, H. by rewrite sorted_perm.
  - apply Qcle_ngt, H. by rewrite <-(sorted_perm point_gap exit_points true).
Qed.

(** X8. No rule, no action: no entry amount is selected exactly when the
    gap exceeds no entry threshold (a gap equal to a threshold does not
    count; an empty table never matches), no exit amount exactly when the
    gap is below no exit threshold, and then the trigger stage does
    nothing at all. *)
Theorem X8_no_match_no_action (context : Context)
    (buying_price selling_price gap : Qc) :
  (buy_amount (entry_points context) gap = None
   ↔ ∀ p, p ∈ entry_points context → gap ≤ point_gap p)
  ∧ (sell_amount (exit_points context) gap = None
     ↔ ∀ p, p ∈ exit_points context → point_gap p ≤ gap)
  ∧ ((∀ p, p ∈ entry_points context → gap ≤ point_gap p) →
     (∀ p, p ∈ exit_points context → point_gap p ≤ gap) →
     handle_triggers context buying_price selling_price gap = mret ()).
Proof.
  split; [apply buy_amount_None|]. split; [apply sell_amount_None|].
  intros Hentry%buy_amount_None Hexit%sell_amount_None.
  unfold handle_triggers. by rewrite Hentry, Hexit.
Qed.

Lemma X8_no_match_no_action_witness :
  handle_triggers well_funded (Q2Qc 100) (Q2Qc 103) (Q2Qc 0.03) = ([], Return ()).
Proof.
  destruct (X8_no_match_no_action well_funded (Q2Qc 100) (Q2Qc 103) (Q2Qc 0.03))
    as (_ & _ & Hnone).
  apply Hnone; intros p Hp; simpl in Hp;
    repeat (apply elem_of_cons in Hp as [->|Hp]; [by vm_compute|]);
    by apply elem_of_nil in Hp.
Defined.

Lemma buy_amount_Some entry_points gap a :
  buy_amount entry_points gap = Some a →
  ∃ p, last (filter (λ q, point_gap q < gap) (sorted point_gap entry_points false))
       = Some p
       ∧ a = point_amount p ∧ p ∈ entry_points ∧ point_gap p < gap.
Proof.
  rewrite buy_amount_last_match. intros (p & Hlast & ->)%fmap_Some.
  exists p. split; [done|]. split; [done|].
  assert (p ∈ filter (λ q, point_gap q < gap) (sorted point_gap entry_points false))
    as [Hgap Hp]%list_elem_of_filter.
  { apply last_Some in Hlast as [l' ->]. set_solver. }
  by rewrite sorted_perm in Hp.
Qed.

(** X9. A rule with amount 0 that wins the entry selection switches the
    entry side off: when every rule with the largest exceeded threshold
    has amount 0, the selected amount is 0, which counts as no selection,
    and the bar runs exactly as with an empty entry table, even though
    rules with lower thresholds matched. *)
Theorem X9_zero_amount_tier_masks_entries (context : Context)
    (buying_price selling_price gap : Qc) :
  (∃ p, p ∈ entry_points context ∧ point_gap p < gap) →
  (∀ q, q ∈ entry_points context → point_gap q < gap →
        (∀ r, r ∈ entry_points context → point_gap r < gap →
              point_gap r ≤ point_gap q) →
        point_amount q = 0) →
  buy_amount (entry_points context) gap = Some 0
  ∧ handle_triggers context buying_price selling_price gap
    = handle_triggers (with_points context [] (exit_points context))
        buying_price selling_price gap
  ∧ ∀ a, trigger_selector (entry_points context) (exit_points context) gap
         ≠ Enter a.
Proof.
  intros Hsome Hzero.
  destruct (sorted_last_match point_gap (λ q, point_gap q < gap)
              (entry_points context) false Hsome) as (p & Hlast & Hp & Hgap & Hmax).
  assert (buy_amount (entry_points context) gap = Some 0) as Hbuy.
  { rewrite buy_amount_last_match, Hlast. simpl. f_equal. by apply Hzero. }
  split; [done|]. unfold handle_triggers, trigger_selector. rewrite Hbuy. simpl.
  split; [done|]. intros a. by destruct (truthy _).
Qed.

Lemma X9_zero_amount_tier_masks_entries_witness :
  trigger_selector
    [ {| point_gap := Q2Qc 0.03; point_amount := Q2Qc 0.05 |};
      {| point_gap := Q2Qc 0.04; point_amount := 0 |} ]
    default_exit_points (Q2Qc 0.045)
  = NoAction.
Proof.
  destruct (X9_zero_amount_tier_masks_entries
              (with_points well_funded
                 [ {| point_gap := Q2Qc 0.03; point_amount := Q2Qc 0.05 |};
                   {| point_gap := Q2Qc 0.04; point_amount := 0 |} ]
                 default_exit_points)
              (Q2Qc 100) (Q2Qc 104.5) (Q2Qc 0.045)) as (Hbuy & _ & _).
  - exists {| point_gap := Q2Qc 0.03; point_amount := Q2Qc 0.05 |}.
    split; [left | reflexivity].
  - intros q Hq Hgap Hmax. simpl in Hq.
    apply elem_of_cons in Hq as [->|Hq].
    + exfalso.
      assert (Q2Qc 0.04 ≤ Q2Qc 0.03) as Hle; [|by vm_compute in Hle].
      apply (Hmax {| point_gap := Q2Qc 0.04; point_amount := 0 |});
        [right; left | reflexivity].
    + apply elem_of_cons in Hq as [->|Hq]; [done|]. by apply elem_of_nil in Hq.
  - unfold trigger_selector. simpl in Hbuy. by rewrite Hbuy.
Defined.

(** X10. Tiers are monotone in the gap: a larger gap never selects an
    entry rule with a smaller threshold, and a smaller (more negative) gap
    never selects an exit rule with a larger threshold. *)
Theorem X10_tiers_monotone (entry_points exit_points : list Point)
    (gap gap' : Qc) (p : Point) :
  gap ≤ gap' →
  (last (filter (λ q, point_gap q < gap) (sorted point_gap entry_points false))
   = Some p →
   ∃ p', last (filter (λ q, point_gap q < gap')
                 (sorted point_gap entry_points false)) = Some p'
         ∧ buy_amount entry_points gap' = Some (point_amount p')
         ∧ point_gap p ≤ point_gap p')
  ∧ (last (filter (λ q, gap' < point_gap q) (sorted point_gap exit_points true))
     = Some p →
     ∃ p', last (filter (λ q, gap < point_gap q)
                   (sorted point_gap exit_points true)) = Some p'
           ∧ sell_amount exit_points gap = Some (point_amount p')
           ∧ point_gap p' ≤ point_gap p).
Proof.
  intros Hle. split; intros Hlast.
  - assert (p ∈ filter (λ q, point_gap q < gap)
                  (sorted point_gap entry_points false))
      as [Hgap Hp]%list_elem_of_filter.
    { apply last_Some in Hlast as [l' ->]. set_solver. }
    rewrite sorted_perm in Hp.
    assert (point_gap p < gap') as Hgap' by by eapply Qclt_le_trans.
    destruct (sorted_last_match point_gap (λ q, point_gap q < gap')
                entry_points false) as (p' & Hlast' & _ & _ & Hmax); [by eauto|].
    exists p'. rewrite buy_amount_last_match, Hlast'.
    split; [done|]. split; [done|]. by apply (Hmax p).
  - assert (p ∈ filter (λ q, gap' < point_gap q)
                  (sorted point_gap exit_points true))
      as [Hgap Hp]%list_elem_of_filter.
    { apply last_Some in Hlast as [l' ->]. set_solver. }
    rewrite sorted_perm in Hp.
    assert (gap < point_gap p) as Hgap' by by eapply Qcle_lt_trans.
    destruct (sorted_last_match point_gap (λ q, gap < point_gap q)
                exit_points true) as (p' & Hlast' & _ & _ & Hmin); [by eauto|].
    exists p'. rewrite sell_amount_last_match, Hlast'.
    split; [done|]. split; [done|]. by apply (Hmin p).
Qed.

Lemma X10_tiers_monotone_witness :
  ∃ p', buy_amount default_entry_points (Q2Qc 0.06) = Some (point_amount p')
        ∧ Q2Qc 0.04 ≤ point_gap p'.
Proof.
  destruct (X10_tiers_monotone default_entry_points default_exit_points
              (Q2Qc 0.045) (Q2Qc 0.06)
              {| point_gap := Q2Qc 0.04; point_amount := Q2Qc 0.1 |})
    as [Hentry _]; [by vm_compute|].
  destruct Hentry as (p' & _ & Hbuy & Hle); [reflexivity|].
  by exists p'.
Defined.

(** X11. When no exit threshold lies above an entry threshold (as with
    positive entry and negative exit thresholds), no gap matches both
    tables: the entry selection or the exit selection is empty. *)
Theorem X11_entry_and_exit_exclusive (entry_points exit_points : list Point)
    (gap : Qc) :
  (∀ p q, p ∈ entry_points → q ∈ exit_points → point_gap q ≤ point_gap p) →
  buy_amount entry_points gap = None ∨ sell_amount exit_points gap = None.
Proof.
  intros Hseparate.
  destruct (buy_amount entry_points gap) as [a|] eqn:Hbuy; [right|by left].
  apply buy_amount_Some in Hbuy as (p & _ & _ & Hp & Hgap).
  apply sell_amount_None. intros q Hq.
  apply Qclt_le_weak. eapply Qcle_lt_trans; [|exact Hgap]. by apply Hseparate.
Qed.

Lemma X11_entry_and_exit_exclusive_witness :
  buy_amount default_entry_points (Q2Qc (-0.03)) = None
  ∨ sell_amount default_exit_points (Q2Qc (-0.03)) = None.
Proof.
  apply X11_entry_and_exit_exclusive.
  intros p q Hp Hq. unfold default_entry_points, default_exit_points in *.
  apply elem_of_cons in Hq as [->|Hq]; [|by apply elem_of_nil in Hq].
  repeat (apply elem_of_cons in Hp as [->|Hp]; [by vm_compute|]).
  by apply elem_of_nil in Hp.
Defined.

Lemma NoDup_fmap_inj_on {A B} (f : A → B) (l : list A) x y :
  NoDup (f <$> l) → x ∈ l → y ∈ l → f x = f y → x = y.
Proof.
  induction l as [|z l IH]; simpl; intros Hnd Hx Hy Hf.
  - by apply elem_of_nil in Hx.
  - apply NoDup_cons in Hnd as [Hnotin Hnd].
    apply elem_of_cons in Hx as [->|Hx]; apply elem_of_cons in Hy as [->|Hy];
      [done| | |by apply IH].
    + destruct Hnotin. rewrite Hf. apply list_elem_of_fmap. eauto.
    + destruct Hnotin. rewrite <-Hf. apply list_elem_of_fmap. eauto.
Qed.

Lemma sorted_unique_keys {A} (key : A → Qc) (l l' : list A) reverse :
  l ≡ₚ l' → NoDup (key <$> l) → sorted key l reverse = sorted key l' reverse.
Proof.
  intros Hperm Hnd.
  apply (StronglySorted_unique_strong (precedes key reverse));
    [|apply sorted_StronglySorted..|by rewrite !sorted_perm].
  intros x y Hx Hy Hxy Hyx.
  rewrite sorted_perm in Hx. rewrite sorted_perm, <-Hperm in Hy.
  apply (NoDup_fmap_inj_on key l); [done..|].
  destruct reverse; simpl in *; by apply Qcle_antisym.
Qed.

(** X12. With pairwise distinct thresholds the order in which a rule
    table lists its rules is immaterial: permuting the table changes
    neither the sorted table nor the selected entry or exit amount. *)
Theorem X12_table_order_immaterial (points points' : list Point) (gap : Qc) :
  points ≡ₚ points' →
  NoDup (point_gap <$> points) →
  sorted point_gap points false = sorted point_gap points' false
  ∧ sorted point_gap points true = sorted point_gap points' true
  ∧ buy_amount points gap = buy_amount points' gap
  ∧ sell_amount points gap = sell_amount points' gap.
Proof.
  intros Hperm Hnd. unfold buy_amount, sell_amount.
  by rewrite !(sorted_unique_keys point_gap points points' _ Hperm Hnd).
Qed.

Lemma X12_table_order_immaterial_witness :
  buy_amount (reverse default_entry_points) (Q2Qc 0.045)
  = buy_amount default_entry_points (Q2Qc 0.045).
Proof.
  destruct (X12_table_order_immaterial (reverse default_entry_points)
              default_entry_points (Q2Qc 0.045)) as (_ & _ & Hbuy & _).
  - apply reverse_Permutation.
  - apply (bool_decide_unpack (NoDup _)). by vm_compute.
  - exact Hbuy.
Defined.

Lemma filter_filter_implied {A} (P Q : A → Prop) `{!∀ x, Decision (P x)}
    `{!∀ x, Decision (Q x)} (l : list A) :
  (∀ x, Q x → P x) → filter Q (filter P l) = filter Q l.
Proof.
  intros HQP. induction l as [|x l IH]; [done|].
  rewrite !filter_cons. destruct (decide (P x)) as [HP|HP].
  - rewrite filter_cons. by rewrite IH.
  - rewrite IH. case_decide; [by destruct HP; auto|done].
Qed.

Lemma last_match_last_listed {A} (key : A → Qc) (P : A → Prop)
    `{!∀ x, Decision (P x)} (l : list A) (reverse : bool) (p : A) :
  (∀ x y, key x = key y → P x → P y) →
  last (filter P (sorted key l reverse)) = Some p →
  last (filter (λ q, key q = key p) l) = Some p.
Proof.
  intros Hkey Hlast.
  assert (P p) as HP.
  { assert (p ∈ filter P (sorted key l reverse)) as [? _]%list_elem_of_filter;
      [|done]. apply last_Some in Hlast as [l' ->]. set_solver. }
  rewrite <-(sorted_stable key l reverse (key p)).
  rewrite <-(filter_filter_implied P (λ q, key q = key p)).
  - apply last_Some in Hlast as [l' ->].
    rewrite filter_app, filter_cons, decide_True by done. apply last_snoc.
  - intros x Hx. by apply (Hkey p x).
Qed.

(** X13. Among rules that share a threshold the one listed last in the
    table wins: the rule selected on the entry side, and likewise on the
    exit side, is the last rule of the table with its own threshold. *)
Theorem X13_last_listed_wins_ties (entry_points exit_points : list Point)
    (gap : Qc) (p : Point) :
  (last (filter (λ q, point_gap q < gap) (sorted point_gap entry_points false))
   = Some p →
   last (filter (λ q, point_gap q = point_gap p) entry_points) = Some p
   ∧ buy_amount entry_points gap = Some (point_amount p))
  ∧ (last (filter (λ q, gap < point_gap q) (sorted point_gap exit_points true))
     = Some p →
     last (filter (λ q, point_gap q = point_gap p) exit_points) = Some p
     ∧ sell_amount exit_points gap = Some (point_amount p)).
Proof.
  split; intros Hlast.
  - split; [|by rewrite buy_amount_last_match, Hlast].
    apply (last_match_last_listed point_gap (λ q, point_gap q < gap)
             entry_points false p); [|done].
    by intros x y ->.
  - split; [|by rewrite sell_amount_last_match, Hlast].
    apply (last_match_last_listed point_gap (λ q, gap < point_gap q)
             exit_points true p); [|done].
    by intros x y ->.
Qed.

Lemma X13_last_listed_wins_ties_witness :
  buy_amount [ {| point_gap := Q2Qc 0.03; point_amount := Q2Qc 1 |};
               {| point_gap := Q2Qc 0.03; point_amount := Q2Qc 2 |} ] (Q2Qc 0.04)
  = Some (Q2Qc 2)
  ∧ sell_amount [ {| point_gap := Q2Qc (-0.02); point_amount := Q2Qc 1 |};
                  {| point_gap := Q2Qc (-0.02); point_amount := Q2Qc 2 |} ]
                (Q2Qc (-0.03))
    = Some (Q2Qc 2).
Proof.
  destruct (X13_last_listed_wins_ties
              [ {| point_gap := Q2Qc 0.03; point_amount := Q2Qc 1 |};
                {| point_gap := Q2Qc 0.03; point_amount := Q2Qc 2 |} ]
              [ {| point_gap := Q2Qc (-0.02); point_amount := Q2Qc 1 |};
                {| point_gap := Q2Qc (-0.02); point_amount := Q2Qc 2 |} ]
              (Q2Qc 0.04) {| point_gap := Q2Qc 0.03; point_amount := Q2Qc 2 |})
    as [Hentry _].
  destruct (X13_last_listed_wins_ties
              [ {| point_gap := Q2Qc 0.03; point_amount := Q2Qc 1 |};
                {| point_gap := Q2Qc 0.03; point_amount := Q2Qc 2 |} ]
              [ {| point_gap := Q2Qc (-0.02); point_amount := Q2Qc 1 |};
                {| point_gap := Q2Qc (-0.02); point_amount := Q2Qc 2 |} ]
              (Q2Qc (-0.03))
              {| point_gap := Q2Qc (-0.02); point_amount := Q2Qc 2 |})
    as [_ Hexit].
  split; [apply Hentry | apply Hexit]; reflexivity.
Defined.

(** ** Every outcome of [handle_data] *)

Lemma open_orders_somewhere_or_nowhere api (pairs : list (string * TradingPair)) :
  (∀ exchange asset, (exchange, asset) ∈ pairs → get_open_orders api asset = [])
  ∨ (∃ exchange asset, (exchange, asset) ∈ pairs ∧ get_open_orders api asset ≠ []).
Proof.
  induction pairs as [|[e a] pairs [IH|(e' & a' & Hin & Hopen)]].
  - left. intros ?? Hin. by apply elem_of_nil in Hin.
  - destruct (get_open_orders api a) as [|o os] eqn:Ha.
    + left. intros e' a' [[= -> ->]|Hin]%elem_of_cons; [done|by eapply IH].
    + right. exists e, a. split; [left|]. by rewrite Ha.
  - right. exists e', a'. split; [by right|done].
Qed.

Lemma orders_of_preamble context data buying_price selling_price gap t :
  orders_of (preamble context data buying_price selling_price gap ++ t)
  = orders_of t.
Proof. done. Qed.

Lemma act_result context buying_price selling_price a :
  result (act context buying_price selling_price a)
  = match a with
    | Enter amount =>
        result (place_order context amount buying_price selling_price "enter")
    | Exit amount =>
        result (place_order context amount buying_price selling_price "exit")
    | NoAction => Return ()
    end.
Proof. destruct a; unfold act, info; by rewrite ?M_bind_emit. Qed.

Lemma act_orders context buying_price selling_price a :
  orders_of (trace (act context buying_price selling_price a))
  = match a with
    | Enter amount =>
        orders_of (trace (place_order context amount buying_price selling_price
                            "enter"))
    | Exit amount =>
        orders_of (trace (place_order context amount buying_price selling_price
                            "exit"))
    | NoAction => []
    end.
Proof. destruct a; unfold act, info; by rewrite ?M_bind_emit. Qed.

(** The loop stops at an exchange that has an open order. *)
Lemma open_order_gate_stops api pairs continue_ :
  (∃ exchange asset, (exchange, asset) ∈ pairs ∧ get_open_orders api asset ≠ []) →
  ∃ exchange asset,
    (exchange, asset) ∈ pairs ∧ get_open_orders api asset ≠ []
    ∧ open_order_gate api pairs continue_
      = info (msg_open_orders (length (get_open_orders api asset)) exchange).
Proof.
  induction pairs as [|[e a] pairs IH]; intros (exchange & asset & Hin & Hopen).
  - by apply elem_of_nil in Hin.
  - simpl. destruct (get_open_orders api a) as [|o os] eqn:Ha.
    + apply elem_of_cons in Hin as [[= -> ->]|Hin]; [done|].
      destruct IH as (e' & a' & Hin' & Hopen' & ->); [by eauto|].
      exists e', a'. split; [by right|done].
    + exists e, a. split; [by left|]. by rewrite Ha.
Qed.

(** With both exchanges bound, a bar is one of three: it stops at the gap
    with a zero buying price; it stops at an open order; it runs the
    selected action. *)
Lemma handle_data_outcome api context data buying_pair selling_pair :
  bound context buying_pair selling_pair →
  let buying_price := current_price data buying_pair in
  let selling_price := current_price data selling_pair in
  let gap := (selling_price - buying_price) / buying_price in
  let run := handle_data api context data in
  (buying_price = 0
   ∧ run = ([ Log INFO (msg_handling_bar (current_dt data));
              Log INFO (msg_price_buying (name (buying_exchange context))
                          buying_price);
              Log INFO (msg_price_selling (name (selling_exchange context))
                          selling_price) ],
            Raise ZeroDivisionError))
  ∨ (buying_price ≠ 0
     ∧ ∃ exchange asset,
         trading_pairs context !! exchange = Some asset
         ∧ get_open_orders api asset ≠ []
         ∧ run = (preamble context data buying_price selling_price gap
                  ++ [Log INFO (msg_open_orders
                                  (length (get_open_orders api asset)) exchange)],
                  Return ()))
  ∨ (buying_price ≠ 0
     ∧ (∀ exchange asset,
          trading_pairs context !! exchange = Some asset →
          get_open_orders api asset = [])
     ∧ run = (preamble context data buying_price selling_price gap
              ++ trace (act context buying_price selling_price
                          (trigger_selector (entry_points context)
                             (exit_points context) gap)),
              result (act context buying_price selling_price
                        (trigger_selector (entry_points context)
                           (exit_points context) gap)))).
Proof.
  intros Hbound bp sp gap run. subst run.
  destruct (decide (bp = 0)) as [Hzero|Hprice]; subst bp sp gap.
  - left. split; [done|]. destruct Hbound as [Hb Hs].
    unfold handle_data, price_gap, pydiv, info.
    rewrite (getitem_Some _ _ _ Hb), M_bind_ret, (getitem_Some _ _ _ Hs),
      M_bind_ret, decide_True by done.
    by rewrite M_bind_raise, !M_bind_emit.
  - right. rewrite (handle_data_unfold api context data _ _ Hbound Hprice).
    cbv zeta.
    destruct (open_orders_somewhere_or_nowhere api
                (map_to_list (trading_pairs context)))
      as [Hnone|Hsome].
    + right. split; [done|]. split.
      { intros e a Ha. apply (Hnone e a). by apply elem_of_map_to_list. }
      by rewrite open_order_gate_open, handle_triggers_act.
    + left. split; [done|].
      destruct (open_order_gate_stops api _
                  (handle_triggers context (current_price data buying_pair)
                     (current_price data selling_pair)
                     ((current_price data selling_pair
                       - current_price data buying_pair)
                      / current_price data buying_pair)) Hsome)
        as (e & a & Hin & Hopen & ->).
      exists e, a. apply elem_of_map_to_list in Hin. by repeat split.
Qed.

Lemma trace_pair {A} (t : list Event) (r : Result A) : trace (t, r) = t.
Proof. done. Qed.

Lemma result_pair {A} (t : list Event) (r : Result A) : result (t, r) = r.
Proof. done. Qed.

(** X14. A buying price of zero stops the bar at the gap computation:
    [handle_data] raises ZeroDivisionError after logging the two prices,
    before anything is recorded, before the open orders are looked at and
    before any order, whatever the rule tables and balances are. *)
Theorem X14_zero_buying_price_raises (api : Api) (context : Context)
    (data : BarData) (buying_pair selling_pair : TradingPair) :
  bound context buying_pair selling_pair →
  current_price data buying_pair = 0 →
  handle_data api context data
  = ([ Log INFO (msg_handling_bar (current_dt data));
       Log INFO (msg_price_buying (name (buying_exchange context)) 0);
       Log INFO (msg_price_selling (name (selling_exchange context))
                   (current_price data selling_pair)) ],
     Raise ZeroDivisionError)
  ∧ orders_of (trace (handle_data api context data)) = []
  ∧ ∀ buying_price selling_price gap,
      Recorded buying_price selling_price gap ∉ trace (handle_data api context data).
Proof.
  intros Hbound Hzero.
  destruct (handle_data_outcome api context data _ _ Hbound)
    as [[_ ->]|[[Hprice _]|[Hprice _]]]; [|done..].
  rewrite Hzero. split; [done|]. split; [done|].
  intros bp sp gap. unfold trace; simpl.
  rewrite !elem_of_cons, elem_of_nil. by intros [?|[?|[?|[]]]].
Qed.

Lemma X14_zero_buying_price_raises_witness :
  result (handle_data (open_on "bitfinex") well_funded (bar 0 (Q2Qc 12)))
  = Raise ZeroDivisionError.
Proof.
  destruct (X14_zero_buying_price_raises (open_on "bitfinex") well_funded
              (bar 0 (Q2Qc 12)) (neo_eth "neo_eth" "bittrex")
              (neo_eth "neo_eth" "bitfinex")) as [-> _];
    [by split | reflexivity | reflexivity].
Defined.

(** X15. With no open order on any configured exchange and a non-zero
    buying price, the bar's orders and result are those of [place_order]
    for the selected action: 'enter' with the entry amount, else 'exit'
    with the exit amount, else nothing. *)
Theorem X15_bar_runs_selected_action (api : Api) (context : Context)
    (data : BarData) (buying_pair selling_pair : TradingPair) :
  bound context buying_pair selling_pair →
  let buying_price := current_price data buying_pair in
  let selling_price := current_price data selling_pair in
  let gap := (selling_price - buying_price) / buying_price in
  buying_price ≠ 0 →
  (∀ exchange asset,
     trading_pairs context !! exchange = Some asset →
     get_open_orders api asset = []) →
  match trigger_selector (entry_points context) (exit_points context) gap with
  | Enter amount =>
      orders_of (trace (handle_data api context data))
      = orders_of (trace (place_order context amount buying_price selling_price
                            "enter"))
      ∧ result (handle_data api context data)
        = result (place_order context amount buying_price selling_price "enter")
  | Exit amount =>
      orders_of (trace (handle_data api context data))
      = orders_of (trace (place_order context amount buying_price selling_price
                            "exit"))
      ∧ result (handle_data api context data)
        = result (place_order context amount buying_price selling_price "exit")
  | NoAction =>
      orders_of (trace (handle_data api context data)) = []
      ∧ result (handle_data api context data) = Return ()
  end.
Proof.
  intros Hbound bp sp gap Hprice Hnone. subst bp sp gap.
  destruct (handle_data_outcome api context data _ _ Hbound)
    as [[? _]|[(_ & e & a & Ha & Hopen & _)|(_ & _ & ->)]];
    [done|by rewrite (Hnone e a) in Hopen|].
  destruct (trigger_selector _ _ _) as [amount|amount|];
    by rewrite trace_pair, result_pair, orders_of_preamble, act_orders, act_result.
Qed.

Lemma X15_bar_runs_selected_action_witness :
  orders_of (trace (handle_data no_open_orders well_funded
                      (bar (Q2Qc 100) (Q2Qc 104.5))))
  = orders_of (trace (place_order well_funded (Q2Qc 0.1) (Q2Qc 100) (Q2Qc 104.5)
                        "enter")).
Proof.
  pose proof (X15_bar_runs_selected_action no_open_orders well_funded
                (bar (Q2Qc 100) (Q2Qc 104.5)) (neo_eth "neo_eth" "bittrex")
                (neo_eth "neo_eth" "bitfinex")) as Hrun.
  simpl in Hrun.
  replace (trigger_selector default_entry_points default_exit_points
             ((Q2Qc 104.5 - Q2Qc 100) / Q2Qc 100))
    with (Enter (Q2Qc 0.1)) in Hrun by reflexivity.
  apply Hrun; [by split | discriminate | done].
Defined.

(** ** What a bar can do *)

Lemma place_order_bound context amount buying_price selling_price action L
    buy_pair sell_pair selling_pair :
  legs context action buying_price selling_price = Some L →
  trading_pairs context !! name (selling_exchange context) = Some selling_pair →
  pair_of context (buy_exchange L) = Some buy_pair →
  pair_of context (sell_exchange L) = Some sell_pair →
  let run := place_order context amount buying_price selling_price action in
  (orders_of (trace run) = []
   ∨ ∃ a, orders_of (trace run)
          = [buy_intent context L buy_pair a; sell_intent context L sell_pair a])
  ∧ (result run = Return ()
     ∨ result run = Raise ZeroDivisionError ∧ buyPrice L = 0).
Proof.
  intros HL Hselling Hbuy Hsell run. subst run.
  destruct (place_order_outcome context amount buying_price selling_price action
              L selling_pair buy_pair sell_pair HL Hselling Hbuy Hsell)
    as [[_ ->]|(m & _ & [(_ & Hzero & ->)|[(_ & _ & ->)|
         [(_ & _ & ->)|(_ & _ & ->)]]])];
    (split; [first [by left | right; by eexists]
            | first [by left | right; by split]]).
Qed.

(** X16. On every bar with both exchanges bound, [handle_data] places
    either no order or exactly two: one on each exchange's instrument,
    with opposite amounts.  It never enters and exits on the same bar. *)
Theorem X16_bar_places_none_or_one_pair (api : Api) (context : Context)
    (data : BarData) (buying_pair selling_pair : TradingPair) :
  bound context buying_pair selling_pair →
  let placed := orders_of (trace (handle_data api context data)) in
  placed = []
  ∨ ∃ buy sell,
      placed = [buy; sell]
      ∧ order_amount sell = - order_amount buy
      ∧ (order_asset buy = buying_pair ∧ order_asset sell = selling_pair
         ∨ order_asset buy = selling_pair ∧ order_asset sell = buying_pair).
Proof.
  intros Hbound placed. subst placed.
  destruct (handle_data_outcome api context data _ _ Hbound)
    as [[_ ->]|[(_ & e & a & _ & _ & ->)|(_ & _ & ->)]]; [by left..|].
  rewrite trace_pair, orders_of_preamble, act_orders.
  destruct Hbound as [Hb Hs].
  destruct (trigger_selector _ _ _) as [amount|amount|]; [| |by left].
  - destruct (place_order_bound context amount (current_price data buying_pair)
                (current_price data selling_pair) "enter"
                (enter_legs context (current_price data buying_pair)
                   (current_price data selling_pair))
                buying_pair selling_pair selling_pair eq_refl Hs Hb Hs)
      as [[->|[a ->]] _]; [by left|].
    right. eexists _, _. split; [done|]. split; [done|]. by left.
  - destruct (place_order_bound context amount (current_price data buying_pair)
                (current_price data selling_pair) "exit"
                (exit_legs context (current_price data buying_pair)
                   (current_price data selling_pair))
                selling_pair buying_pair selling_pair eq_refl Hs Hs Hb)
      as [[->|[a ->]] _]; [by left|].
    right. eexists _, _. split; [done|]. split; [done|]. by right.
Qed.

Lemma X16_bar_places_none_or_one_pair_witness :
  ∃ buy sell,
    orders_of (trace (handle_data no_open_orders well_funded
                        (bar (Q2Qc 100) (Q2Qc 97))))
    = [buy; sell]
    ∧ order_asset buy = neo_eth "neo_eth" "bitfinex"
    ∧ order_asset sell = neo_eth "neo_eth" "bittrex".
Proof.
  destruct (X16_bar_places_none_or_one_pair no_open_orders well_funded
              (bar (Q2Qc 100) (Q2Qc 97)) (neo_eth "neo_eth" "bittrex")
              (neo_eth "neo_eth" "bitfinex"))
    as [Hnone|(buy & sell & Hplaced & _ & [[Hbuy Hsell]|[Hbuy Hsell]])];
    [by split | ..].
  - by vm_compute in Hnone.
  - exfalso. vm_compute in Hplaced. injection Hplaced as <- _. discriminate Hbuy.
  - exists buy, sell. exact (conj Hplaced (conj Hbuy Hsell)).
Defined.

Lemma handle_data_bound_result (api : Api) (context : Context)
    (data : BarData) (buying_pair selling_pair : TradingPair) :
  bound context buying_pair selling_pair →
  let run := handle_data api context data in
  (result run = Return () ∨ result run = Raise ZeroDivisionError)
  ∧ (current_price data buying_pair ≠ 0 →
     current_price data selling_pair ≠ 0 →
     result run = Return ()).
Proof.
  intros Hbound run. subst run.
  destruct (handle_data_outcome api context data _ _ Hbound)
    as [[Hzero ->]|[(_ & e & a & _ & _ & ->)|(Hprice & _ & ->)]];
    [split; [by right|done] | split; [by left|done] |].
  rewrite result_pair, act_result.
  destruct Hbound as [Hb Hs].
  destruct (trigger_selector _ _ _) as [amount|amount|]; [| |split; [by left|done]].
  - destruct (place_order_bound context amount (current_price data buying_pair)
                (current_price data selling_pair) "enter"
                (enter_legs context (current_price data buying_pair)
                   (current_price data selling_pair))
                buying_pair selling_pair selling_pair eq_refl Hs Hb Hs)
      as [_ [->|[-> Hzero]]]; [split; [by left|done]|].
    split; [by right|]. by intros ? _.
  - destruct (place_order_bound context amount (current_price data buying_pair)
                (current_price data selling_pair) "exit"
                (exit_legs context (current_price data buying_pair)
                   (current_price data selling_pair))
                selling_pair buying_pair selling_pair eq_refl Hs Hs Hb)
      as [_ [->|[-> Hzero]]]; [split; [by left|done]|].
    split; [by right|]. by intros _ ?.
Qed.

(** X17. The only exception a bar can raise, with both exchanges bound,
    is ZeroDivisionError; with non-zero prices on both exchanges
    [handle_data] always returns normally, whatever the balances, rule
    tables and open orders are. *)
Theorem X17_bar_raises_only_zero_division (api : Api) (context : Context)
    (data : BarData) (buying_pair selling_pair : TradingPair) :
  bound context buying_pair selling_pair →
  let run := handle_data api context data in
  (result run = Return () ∨ result run = Raise ZeroDivisionError)
  ∧ (current_price data buying_pair ≠ 0 →
     current_price data selling_pair ≠ 0 →
     result run = Return ()).
Proof. apply handle_data_bound_result. Qed.

Lemma X17_bar_raises_only_zero_division_witness :
  result (handle_data no_open_orders short_of_inventory
            (bar (Q2Qc 100) (Q2Qc 97))) = Return ().
Proof.
  destruct (X17_bar_raises_only_zero_division no_open_orders short_of_inventory
              (bar (Q2Qc 100) (Q2Qc 97)) (neo_eth "neo_eth" "bittrex")
              (neo_eth "neo_eth" "bitfinex")) as [_ Hreturn]; [by split|].
  apply Hreturn; discriminate.
Defined.

(** ** [initialize] *)

(** X18. [initialize] needs both exchanges: without 'bittrex', or with
    'bittrex' but without 'bitfinex', in [context.exchanges] it raises
    KeyError for the missing one right after its log line; it returns a
    context exactly when both are there. *)
Theorem X18_initialize_needs_both_exchanges
    (symbol : string → string → TradingPair) (exchanges : gmap string Exchange) :
  (exchanges !! "bittrex" = None →
   initialize symbol exchanges
   = ([Log INFO msg_initializing], Raise (KeyError "bittrex")))
  ∧ (is_Some (exchanges !! "bittrex") → exchanges !! "bitfinex" = None →
     initialize symbol exchanges
     = ([Log INFO msg_initializing], Raise (KeyError "bitfinex")))
  ∧ ((∃ context, result (initialize symbol exchanges) = Return context)
     ↔ is_Some (exchanges !! "bittrex") ∧ is_Some (exchanges !! "bitfinex")).
Proof.
  unfold initialize, info.
  destruct (exchanges !! "bittrex") as [buying|] eqn:Hb.
  2:{ rewrite (getitem_None _ _ Hb), M_bind_raise, M_bind_emit.
      split; [done|]. split; [by intros [??]|].
      split; [by intros [??]|by intros [[??] _]]. }
  rewrite (getitem_Some _ _ _ Hb), M_bind_ret.
  destruct (exchanges !! "bitfinex") as [selling|] eqn:Hs.
  2:{ rewrite (getitem_None _ _ Hs), M_bind_raise, M_bind_emit.
      split; [done|]. split; [done|].
      split; [by intros [??]|by intros [_ [??]]]. }
  rewrite (getitem_Some _ _ _ Hs), M_bind_ret, M_bind_emit.
  split; [done|]. split; [done|]. split; [by eauto|]. intros _. by eexists.
Qed.

Lemma X18_initialize_needs_both_exchanges_witness :
  initialize neo_eth {[ "bittrex" := bittrex 0 ∅ ]}
  = ([Log INFO msg_initializing], Raise (KeyError "bitfinex")).
Proof.
  destruct (X18_initialize_needs_both_exchanges neo_eth
              {[ "bittrex" := bittrex 0 ∅ ]}) as (_ & Hmissing & _).
  apply Hmissing; [by eexists | reflexivity].
Defined.

(** X19. A context returned by [initialize] holds the two exchanges it
    was given and binds an instrument to each of them (and to nothing
    else), so that no later bar can raise KeyError: on such a context
    [handle_data] returns normally or raises ZeroDivisionError. *)
Theorem X19_initialize_binds_both_exchanges
    (symbol : string → string → TradingPair) (exchanges : gmap string Exchange)
    (t : list Event) (context : Context) :
  initialize symbol exchanges = (t, Return context) →
  exchanges !! "bittrex" = Some (buying_exchange context)
  ∧ exchanges !! "bitfinex" = Some (selling_exchange context)
  ∧ bound context (symbol "neo_eth" (name (buying_exchange context)))
      (symbol "neo_eth" (name (selling_exchange context)))
  ∧ dom (trading_pairs context)
    = {[ name (buying_exchange context); name (selling_exchange context) ]}
  ∧ ∀ api data,
      result (handle_data api context data) = Return ()
      ∨ result (handle_data api context data) = Raise ZeroDivisionError.
Proof.
  unfold initialize, info.
  destruct (exchanges !! "bittrex") as [buying|] eqn:Hb.
  2:{ by rewrite (getitem_None _ _ Hb), M_bind_raise, M_bind_emit. }
  rewrite (getitem_Some _ _ _ Hb), M_bind_ret.
  destruct (exchanges !! "bitfinex") as [selling|] eqn:Hs.
  2:{ by rewrite (getitem_None _ _ Hs), M_bind_raise, M_bind_emit. }
  rewrite (getitem_Some _ _ _ Hs), M_bind_ret, M_bind_emit.
  intros [= <- <-]. simpl.
  assert (bound
            {| buying_exchange := buying; selling_exchange := selling;
               trading_pair_symbol := "neo_eth";
               trading_pairs :=
                 <[name selling := symbol "neo_eth" (name selling)]>
                   (<[name buying := symbol "neo_eth" (name buying)]> ∅);
               entry_points := default_entry_points;
               exit_points := default_exit_points;
               MAX_POSITIONS := 50; SLIPPAGE_ALLOWED := Q2Qc 0.02 |}
            (symbol "neo_eth" (name buying)) (symbol "neo_eth" (name selling)))
    as Hbound.
  { split; simpl; [|by rewrite lookup_insert_eq].
    destruct (decide (name selling = name buying)) as [->|Hne].
    - by rewrite lookup_insert_eq.
    - by rewrite lookup_insert_ne, lookup_insert_eq. }
  split; [done|]. split; [done|]. split; [exact Hbound|]. split.
  - by rewrite !dom_insert_L, dom_empty_L, (right_id_L ∅ (∪)), (comm_L (∪)).
  - intros api data. by eapply handle_data_bound_result.
Qed.

Lemma X19_initialize_binds_both_exchanges_witness :
  bound well_funded (neo_eth "neo_eth" "bittrex") (neo_eth "neo_eth" "bitfinex").
Proof.
  by destruct (X19_initialize_binds_both_exchanges neo_eth
                 {[ "bittrex" := bittrex (Q2Qc 1000) {[ "neo" := Q2Qc 50 ]};
                    "bitfinex" := bitfinex (Q2Qc 1000) {[ "neo" := Q2Qc 50 ]} ]}
                 [Log INFO msg_initializing] well_funded
                 (initialize_initialized _ _ _ _))
    as (_ & _ & Hbound & _).
Defined.

(** ** Sizes and limits of the orders placed *)




